(** * Voice-controlled laptop assistant (server.js)

    A shallow embedding of the command processor ([CommandProcessor]) and of
    the storage helpers ([saveCommand], [getCommands], [clearCommands]) of
    [server.js], with the properties of the specification stated over it.

    Strings.  A JavaScript string is modelled by a Rocq [string], read as the
    UTF-8 bytes of the text.  Substring search for the ASCII words of the
    conditions, the ASCII character classes of the regular expressions and
    percent-encoding act on these bytes as the JavaScript operations act on
    the text.  [toLowerCase], [trim] and the white-space class [\s] are the
    JavaScript ones on ASCII text only ([ascii_text]): JavaScript also
    lower-cases letters outside ASCII and counts U+00A0, U+FEFF and other
    code points as white space.  A property that normalises a raw text, or
    that depends on what a pattern takes for white space, is therefore
    stated for ASCII text.

    Numbers.  Durations and clock readings are natural numbers ([N]).  The
    code computes with doubles, which agree with [N] below 2^53; a property
    that depends on the value of a duration carries that bound. *)

From Stdlib Require Import String Ascii List NArith ZArith Lia Bool.
From Stdlib Require Import DecimalString DecimalN.
Import ListNotations.
Open Scope string_scope.

Set Implicit Arguments.

(* ================================================================== *)
(** ** JavaScript string primitives *)
(* ================================================================== *)

Module Js.

(** The double-quote character, for command lines that quote an argument. *)
Definition dq : string := String (ascii_of_nat 34) EmptyString.
Definition quoted (s : string) : string := dq ++ s ++ dq.

Definition between (lo hi : nat) (c : ascii) : bool :=
  let n := nat_of_ascii c in (lo <=? n)%nat && (n <=? hi)%nat.

(** [\s], also the set stripped by [trim], within ASCII: TAB, LF, VT, FF, CR,
    SPACE.  The JavaScript class has members outside ASCII as well. *)
Definition is_space (c : ascii) : bool :=
  between 9 13 c || (nat_of_ascii c =? 32)%nat.

(** [\d] *)
Definition is_digit (c : ascii) : bool := between 48 57 c.
Definition is_upper (c : ascii) : bool := between 65 90 c.
Definition is_lower (c : ascii) : bool := between 97 122 c.
(** [[a-zA-Z]] *)
Definition is_alpha (c : ascii) : bool := is_upper c || is_lower c.
(** [\w] *)
Definition is_word (c : ascii) : bool :=
  is_alpha c || is_digit c || (nat_of_ascii c =? 95)%nat.
(** [.]: anything but a line terminator. *)
Definition is_dot (c : ascii) : bool :=
  negb ((nat_of_ascii c =? 10)%nat || (nat_of_ascii c =? 13)%nat).

(** [toLowerCase] within ASCII: [A-Z] go to [a-z], every other byte stays.
    On a text outside ASCII the JavaScript function does more. *)
Definition lower_char (c : ascii) : ascii :=
  if is_upper c then ascii_of_nat (nat_of_ascii c + 32) else c.

Fixpoint toLowerCase (s : string) : string :=
  match s with
  | EmptyString => EmptyString
  | String c s' => String (lower_char c) (toLowerCase s')
  end.

Fixpoint trimStart (s : string) : string :=
  match s with
  | EmptyString => EmptyString
  | String c s' => if is_space c then trimStart s' else s
  end.

Fixpoint trimEnd (s : string) : string :=
  match s with
  | EmptyString => EmptyString
  | String c s' =>
      let t := trimEnd s' in
      if is_space c && (t =? "") then EmptyString else String c t
  end.

Definition trim (s : string) : string := trimEnd (trimStart s).

Definition startsWith (s p : string) : bool := String.prefix p s.

(** [s.includes(sub)] *)
Fixpoint includes (s sub : string) : bool :=
  startsWith s sub ||
  match s with
  | EmptyString => false
  | String _ s' => includes s' sub
  end.

(** A JavaScript string is truthy when it is not empty. *)
Definition truthy (s : string) : bool := negb (s =? "").

(** [a || b] on strings. *)
Definition or_else (a b : string) : string := if truthy a then a else b.

(** The first alternative of [p1|p2|...] that matches at the head of [s]. *)
Fixpoint first_alternative (alts : list string) (s : string) : option string :=
  match alts with
  | [] => None
  | p :: alts' => if startsWith s p then Some p else first_alternative alts' s
  end.

(** [s.replace(/p1|p2|.../g, '')]: scan left to right; where an alternative
    matches, drop it and resume after it; otherwise keep the character.
    [skip] counts the characters of a match still to be dropped. *)
Fixpoint replace_all_aux (alts : list string) (s : string) (skip : nat) : string :=
  match s with
  | EmptyString => EmptyString
  | String c s' =>
      match skip with
      | S k => replace_all_aux alts s' k
      | O =>
          match first_alternative alts s with
          | Some p =>
              match String.length p with
              | O => String c (replace_all_aux alts s' 0)
              | S k => replace_all_aux alts s' k
              end
          | None => String c (replace_all_aux alts s' 0)
          end
      end
  end.

Definition replace_all (alts : list string) (s : string) : string :=
  replace_all_aux alts s 0.

(** The longest prefix of [s] whose characters satisfy [p]. *)
Fixpoint take_while (p : ascii -> bool) (s : string) : string :=
  match s with
  | EmptyString => EmptyString
  | String c s' => if p c then String c (take_while p s') else EmptyString
  end.

(** Every character of [s] satisfies [p]. *)
Fixpoint every (p : ascii -> bool) (s : string) : bool :=
  match s with
  | EmptyString => true
  | String c s' => p c && every p s'
  end.

(** The text is ASCII: on such a text [toLowerCase], [trim] and [\s] above
    are the JavaScript ones. *)
Definition ascii_text (s : string) : bool :=
  every (fun c => (nat_of_ascii c <? 128)%nat) s.

(** An unanchored regular expression: the match at the leftmost position
    where the anchored matcher [m] succeeds. *)
Fixpoint leftmost (A : Type) (m : string -> option A) (s : string) : option A :=
  match m s with
  | Some a => Some a
  | None =>
      match s with
      | EmptyString => None
      | String _ s' => leftmost m s'
      end
  end.

(** [s] minus the literal [p] at its head, if it is there. *)
Fixpoint strip_prefix (p s : string) : option string :=
  match p, s with
  | EmptyString, _ => Some s
  | String a p', String b s' => if Ascii.eqb a b then strip_prefix p' s' else None
  | String _ _, EmptyString => None
  end.

(** [\s+ rest], greedy with backtracking: the longest run of white space
    after which [rest] matches. *)
Fixpoint spaces1_then (A : Type) (rest : string -> option A) (s : string) : option A :=
  match s with
  | EmptyString => None
  | String c s' =>
      if is_space c then
        match spaces1_then rest s' with
        | Some a => Some a
        | None => rest s'
        end
      else None
  end.

(** [\s* rest], greedy with backtracking. *)
Definition spaces0_then (A : Type) (rest : string -> option A) (s : string) : option A :=
  match spaces1_then rest s with
  | Some a => Some a
  | None => rest s
  end.

(** [n.toString()] for a non-negative integer. *)
Definition toString (n : N) : string := NilEmpty.string_of_uint (N.to_uint n).

Definition digit_value (c : ascii) : N := N.of_nat (nat_of_ascii c - 48).

(** [parseInt(s)] on a string of decimal digits: the number the digits
    denote.  The code gets the nearest double, which is this number when it
    is below 2^53. *)
Definition parseInt (s : string) : N :=
  fold_left (fun acc c => 10 * acc + digit_value c)%N (list_ascii_of_string s) 0%N.

Definition hex_digit (n : nat) : ascii :=
  if (n <? 10)%nat then ascii_of_nat (48 + n) else ascii_of_nat (55 + n).

(** Characters [encodeURIComponent] leaves alone:
    letters, digits and [- _ . ! ~ * ' ( )]. *)
Definition unreserved (c : ascii) : bool :=
  is_alpha c || is_digit c ||
  existsb (fun n => (nat_of_ascii c =? n)%nat) [45; 95; 46; 33; 126; 42; 39; 40; 41]%nat.

Fixpoint encodeURIComponent (s : string) : string :=
  match s with
  | EmptyString => EmptyString
  | String c s' =>
      if unreserved c then String c (encodeURIComponent s')
      else
        let n := nat_of_ascii c in
        String "%" (String (hex_digit (n / 16)) (String (hex_digit (n mod 16))
          (encodeURIComponent s')))
  end.

(** [obj[key]] on an object literal given as its list of own properties. *)
Fixpoint lookup (key : string) (obj : list (string * string)) : option string :=
  match obj with
  | [] => None
  | (k, v) :: obj' => if k =? key then Some v else lookup key obj'
  end.

End Js.

Import Js.

(* ================================================================== *)
(** ** Regular expressions of [processCommand] *)
(* ================================================================== *)

Module Regex.

(** [C+ rest], greedy with backtracking: the run matched by [C+] and what
    [rest] returns after it. *)
Fixpoint plus_then (A : Type) (p : ascii -> bool) (rest : string -> option A)
    (s : string) : option (string * A) :=
  match s with
  | EmptyString => None
  | String c s' =>
      if p c then
        match plus_then p rest s' with
        | Some (run, a) => Some (String c run, a)
        | None =>
            match rest s' with
            | Some a => Some (String c EmptyString, a)
            | None => None
            end
        end
      else None
  end.

(** [(?:p1|p2|...) rest] *)
Fixpoint alternatives_then (A : Type) (alts : list string)
    (rest : string -> option A) (s : string) : option A :=
  match alts with
  | [] => None
  | p :: alts' =>
      match match strip_prefix p s with Some r => rest r | None => None end with
      | Some a => Some a
      | None => alternatives_then alts' rest s
      end
  end.

(** [C+] at the end of a pattern: the longest non-empty run. *)
Definition run1 (p : ascii -> bool) (s : string) : option string :=
  let r := take_while p s in if truthy r then Some r else None.

(** [[a-zA-Z0-9.-]] *)
Definition is_host_char (c : ascii) : bool :=
  is_alpha c || is_digit c || (nat_of_ascii c =? 46)%nat || (nat_of_ascii c =? 45)%nat.

(** [\.[a-zA-Z]{2,}] *)
Definition dot_tld (s : string) : option string :=
  match s with
  | String c s' =>
      if (nat_of_ascii c =? 46)%nat then
        let l := take_while is_alpha s' in
        if (2 <=? String.length l)%nat then Some (String c l) else None
      else None
  | EmptyString => None
  end.

(** [cmd.match(/open\s+([a-zA-Z0-9.-]+\.[a-zA-Z]{2,})/)], group 1. *)
Definition urlMatch (cmd : string) : option string :=
  leftmost
    (alternatives_then ["open"]
       (spaces1_then (fun s =>
          match plus_then is_host_char dot_tld s with
          | Some (run, tld) => Some (run ++ tld)
          | None => None
          end)))
    cmd.

(** [cmd.match(/(?:message|text)\s+(\w+)/)], group 1. *)
Definition contactMatch (cmd : string) : option string :=
  leftmost (alternatives_then ["message"; "text"] (spaces1_then (run1 is_word))) cmd.

(** [cmd.match(/(?:open|launch|start)\s+(.+)/)], group 1. *)
Definition appMatch (cmd : string) : option string :=
  leftmost (alternatives_then ["open"; "launch"; "start"] (spaces1_then (run1 is_dot))) cmd.

(** [(seconds?|minutes?)] *)
Definition time_unit (s : string) : option string :=
  match strip_prefix "second" s with
  | Some r => Some (if startsWith r "s" then "seconds" else "second")
  | None =>
      match strip_prefix "minute" s with
      | Some r => Some (if startsWith r "s" then "minutes" else "minute")
      | None => None
      end
  end.

(** [cmd.match(/(\d+)\s*(seconds?|minutes?)/)], groups 1 and 2. *)
Definition timeMatch (cmd : string) : option (string * string) :=
  leftmost (plus_then is_digit (spaces0_then time_unit)) cmd.

End Regex.

Import Regex.

(* ================================================================== *)
(** ** Errors, the host and the effect monad *)
(* ================================================================== *)

(** Whatever [server.js] throws or rejects with is an [Error] object: the
    error [exec] passes to its callback, a [new Error(...)], or a
    [TypeError] of the runtime.  So [error.message] is always a string.

    [error.code]: absent on a plain [Error], the exit status of the child
    process, or a symbolic code of the runtime. *)
Inductive ErrCode : Type :=
| NoCode
| ExitCode (n : Z)
| SymCode (s : string).

Record JsError : Type := mkError { code : ErrCode; message : string }.

(** [new Error(msg)] *)
Definition newError (msg : string) : JsError := mkError NoCode msg.

(** [error.code === 127] *)
Definition code_is_127 (e : JsError) : bool :=
  match code e with
  | ExitCode n => (n =? 127)%Z
  | _ => false
  end.

(** What the callback of [exec] receives. *)
Record ExecResult : Type := mkExec {
  exec_error : option JsError;
  stdout : string;
  stderr : string
}.

(** One entry of an [os.networkInterfaces()] list. *)
Record Iface : Type := mkIface {
  internal : bool;
  address : string;
  family : string
}.

(** Everything [server.js] asks of the machine it runs on.  [World] is the
    state of the host; [exec] runs a shell command in it (with the optional
    timeout, in milliseconds, of the call) and stands for a call whose
    callback is eventually invoked.  [platform] ranges over the values of
    [os.platform()].  Figures that the source renders from floating-point
    quotients ([toFixed]) are supplied as text. *)
Class Host : Type := {
  World : Type;
  platform : string;                                   (* os.platform() *)
  arch : string;                                       (* os.arch() *)
  exec : option N -> string -> World -> ExecResult * World;
  localeTime : World -> string;       (* new Date().toLocaleTimeString() *)
  localeDate : World -> string;       (* new Date().toLocaleDateString() *)
  hostname : World -> string;
  uptimeHours : World -> string;
  totalMemGB : World -> string;
  freeMemGB : World -> string;
  usedMemGB : World -> string;
  (** [(totalMem - freeMem).toFixed(2)] on the two rounded figures *)
  usedOfRoundedGB : World -> string;
  memUsagePercent : World -> string;
  cpus : World -> list (string * string);              (* model, speed *)
  networkInterfaces : World -> list (string * list Iface);
  (** the [TypeError] of reading a property of [undefined] *)
  undefinedReadError : JsError;
  (** the [TypeError] of [exec] called on something that is not a string *)
  execArgumentError : JsError;
  (** what the runtime does with a rejected promise that nobody handles;
      Node reports the error and, by default, ends the process *)
  unhandledRejection : JsError -> World -> World
}.

(** The outcome of a computation: a value, or a thrown error / rejected
    promise. *)
Inductive Res (A : Type) : Type :=
| Ok (a : A)
| Throw (e : JsError).
Arguments Ok {A} a.
Arguments Throw {A} e.

Section Effects.
Context {H : Host}.

(** An [async] function body: it runs in the host's state and either
    returns or throws. *)
Definition M (A : Type) : Type := World -> Res A * World.

Definition ret (A : Type) (a : A) : M A := fun w => (Ok a, w).
Definition throw (A : Type) (e : JsError) : M A := fun w => (Throw e, w).

Definition bind (A B : Type) (m : M A) (k : A -> M B) : M B :=
  fun w =>
    match m w with
    | (Ok a, w') => k a w'
    | (Throw e, w') => (Throw e, w')
    end.

(** [try { m } catch (e) { h e }] *)
Definition try_catch (A : Type) (m : M A) (h : JsError -> M A) : M A :=
  fun w =>
    match m w with
    | (Ok a, w') => (Ok a, w')
    | (Throw e, w') => h e w'
    end.

(** Read something off the host without changing it. *)
Definition ask (A : Type) (f : World -> A) : M A := fun w => (Ok (f w), w).

End Effects.

Arguments throw {H A} e.

Declare Scope js_scope.
Delimit Scope js_scope with js.
Notation "x <- m ;; k" := (bind m (fun x => k))
  (at level 61, m at next level, right associativity) : js_scope.
Notation "m ;; k" := (bind m (fun _ => k))
  (at level 61, right associativity) : js_scope.
Open Scope js_scope.

(* ================================================================== *)
(** ** CommandProcessor: the host actions *)
(* ================================================================== *)

Section CommandProcessor.
Context {H : Host}.

(** The promise wrapper shared by the action helpers:
    [exec(command, (error) => ...)] rejects with a fresh [Error(msg127)]
    when the exit status is 127, with the error itself otherwise. *)
Definition exec_or_reject (command msg127 : string) : M unit :=
  fun w =>
    let (r, w') := exec None command w in
    match exec_error r with
    | None => (Ok tt, w')
    | Some e => if code_is_127 e then (Throw (newError msg127), w') else (Throw e, w')
    end.

Definition executeCommand (command : string) : M string :=
  fun w =>
    let (r, w') := exec (Some 10000%N) command w in
    match exec_error r with
    | Some e => (Throw e, w')
    | None => (Ok (or_else (stdout r) (or_else (stderr r) "No output")), w')
    end.

Definition openWebsite (url : string) : M unit :=
  let fullUrl := if startsWith url "http" then url else "https://" ++ url in
  let command :=
    if platform =? "darwin" then "open " ++ quoted fullUrl
    else if platform =? "win32" then "start " ++ quoted "" ++ " " ++ quoted fullUrl
    else "xdg-open " ++ quoted fullUrl in
  exec_or_reject command
    "Web browser not found. Please ensure a web browser is installed and accessible.".

Definition app_not_found (appName : string) : string :=
  "Application " ++ quoted appName ++
  " not found or not installed. Please ensure it's installed and in your system's PATH.".

Definition macApps : list (string * string) :=
  [("calculator", "open -a Calculator"); ("notepad", "open -a TextEdit");
   ("filemanager", "open -a Finder"); ("whatsapp", "open -a WhatsApp")].
Definition winApps : list (string * string) :=
  [("calculator", "calc"); ("notepad", "notepad");
   ("filemanager", "explorer"); ("whatsapp", "start whatsapp:")].
Definition linuxApps : list (string * string) :=
  [("calculator", "gnome-calculator || kcalc || xcalc");
   ("notepad", "echo " ++ quoted "Text editor not available in this environment");
   ("filemanager", "echo " ++ quoted "File manager not available in this environment");
   ("whatsapp", "xdg-open https://web.whatsapp.com")].

Definition openApplication (appName : string) : M unit :=
  let command :=
    if platform =? "darwin" then lookup appName macApps
    else if platform =? "win32" then lookup appName winApps
    else lookup appName linuxApps in
  match command with
  | Some c => exec_or_reject c (app_not_found appName)
  | None =>
      throw (newError ("Application " ++ quoted appName ++ " not available on this platform"))
  end.

(** The messaging helpers resolve whatever [exec] reports.  On an error
    they call [openWebsite('web.whatsapp.com')] and drop the promise it
    returns: when that promise rejects, no handler is attached to it, and
    the error goes to the runtime as an unhandled rejection. *)
Definition whatsapp_exec (command : string) : M unit :=
  fun w =>
    let (r, w') := exec None command w in
    match exec_error r with
    | None => (Ok tt, w')
    | Some _ =>
        match openWebsite "web.whatsapp.com" w' with
        | (Ok _, w'') => (Ok tt, w'')
        | (Throw e, w'') => (Ok tt, unhandledRejection e w'')
        end
    end.

Definition opener : string :=
  if platform =? "win32" then "start"
  else if platform =? "darwin" then "open"
  else "xdg-open".

Definition openWhatsAppCall (contact : string) : M unit :=
  whatsapp_exec (opener ++ " whatsapp://call?phone=" ++ encodeURIComponent contact).

Definition openWhatsAppMessage (contact : string) : M unit :=
  whatsapp_exec (opener ++ " whatsapp://send?phone=" ++ encodeURIComponent contact).

Definition winPaths : list (string * string) :=
  [("downloads", "%USERPROFILE%\Downloads"); ("documents", "%USERPROFILE%\Documents");
   ("desktop", "%USERPROFILE%\Desktop"); ("pictures", "%USERPROFILE%\Pictures");
   ("music", "%USERPROFILE%\Music")].
(** [macPaths] and [linuxPaths] are the same table. *)
Definition unixPaths : list (string * string) :=
  [("downloads", "~/Downloads"); ("documents", "~/Documents");
   ("desktop", "~/Desktop"); ("pictures", "~/Pictures"); ("music", "~/Music")].

(** [table[key] || table.fallback] *)
Definition lookup_or (key fallback : string) (table : list (string * string)) : string :=
  match lookup key table with
  | Some v => if truthy v then v else match lookup fallback table with Some d => d | None => "" end
  | None => match lookup fallback table with Some d => d | None => "" end
  end.

Definition openFileLocation (location : string) : M unit :=
  let command :=
    if platform =? "win32" then "explorer " ++ quoted (lookup_or location "downloads" winPaths)
    else if platform =? "darwin" then "open " ++ quoted (lookup_or location "downloads" unixPaths)
    else "xdg-open " ++ quoted (lookup_or location "downloads" unixPaths) in
  exec_or_reject command
    "File manager not found or not installed. Please ensure a file manager is installed and accessible.".

Definition winSettings : list (string * string) :=
  [("main", "ms-settings:"); ("network", "ms-settings:network");
   ("display", "ms-settings:display"); ("sound", "ms-settings:sound");
   ("bluetooth", "ms-settings:bluetooth"); ("privacy", "ms-settings:privacy");
   ("update", "ms-settings:windowsupdate")].
Definition macSettings : list (string * string) :=
  [("main", "open -b com.apple.systempreferences");
   ("network", "open -b com.apple.systempreferences /System/Library/PreferencePanes/Network.prefPane");
   ("display", "open -b com.apple.systempreferences /System/Library/PreferencePanes/Displays.prefPane");
   ("sound", "open -b com.apple.systempreferences /System/Library/PreferencePanes/Sound.prefPane");
   ("bluetooth", "open -b com.apple.systempreferences /System/Library/PreferencePanes/Bluetooth.prefPane")].
Definition linuxSettings : list (string * string) :=
  [("main", "gnome-control-center || systemsettings5 || unity-control-center");
   ("network", "gnome-control-center network || systemsettings5 kcm_networkmanagement");
   ("display", "gnome-control-center display || systemsettings5 kcm_displayconfiguration");
   ("sound", "gnome-control-center sound || systemsettings5 kcm_pulseaudio");
   ("bluetooth", "gnome-control-center bluetooth || systemsettings5 kcm_bluetooth")].

Definition openSettings (settingType : string) : M unit :=
  let command :=
    if platform =? "win32" then "start " ++ lookup_or settingType "main" winSettings
    else if platform =? "darwin" then lookup_or settingType "main" macSettings
    else lookup_or settingType "main" linuxSettings in
  exec_or_reject command
    "Settings application not found. Please ensure system settings are accessible.".

Definition appMappings_win32 : list (string * string) :=
  [("chrome", "start chrome"); ("firefox", "start firefox"); ("edge", "start msedge");
   ("notepad", "notepad"); ("calculator", "calc"); ("paint", "mspaint");
   ("word", "start winword"); ("excel", "start excel"); ("powerpoint", "start powerpnt");
   ("outlook", "start outlook"); ("teams", "start ms-teams:"); ("zoom", "start zoommtg:");
   ("discord", "start discord:"); ("spotify", "start spotify:"); ("steam", "start steam:");
   ("vscode", "code"); ("photoshop", "start photoshop"); ("illustrator", "start illustrator");
   ("premiere", "start premiere"); ("aftereffects", "start aftereffects")].
Definition appMappings_darwin : list (string * string) :=
  [("chrome", "open -a " ++ quoted "Google Chrome"); ("firefox", "open -a Firefox");
   ("safari", "open -a Safari"); ("textedit", "open -a TextEdit");
   ("calculator", "open -a Calculator"); ("word", "open -a " ++ quoted "Microsoft Word");
   ("excel", "open -a " ++ quoted "Microsoft Excel");
   ("powerpoint", "open -a " ++ quoted "Microsoft PowerPoint");
   ("outlook", "open -a " ++ quoted "Microsoft Outlook");
   ("teams", "open -a " ++ quoted "Microsoft Teams"); ("zoom", "open -a zoom.us");
   ("discord", "open -a Discord"); ("spotify", "open -a Spotify"); ("steam", "open -a Steam");
   ("vscode", "open -a " ++ quoted "Visual Studio Code");
   ("photoshop", "open -a " ++ quoted "Adobe Photoshop");
   ("illustrator", "open -a " ++ quoted "Adobe Illustrator");
   ("premiere", "open -a " ++ quoted "Adobe Premiere Pro")].
Definition appMappings_linux : list (string * string) :=
  [("chrome", "google-chrome || chromium-browser"); ("firefox", "firefox"); ("gedit", "gedit");
   ("calculator", "gnome-calculator || kcalc"); ("libreoffice", "libreoffice");
   ("writer", "libreoffice --writer"); ("calc", "libreoffice --calc");
   ("impress", "libreoffice --impress"); ("thunderbird", "thunderbird");
   ("discord", "discord"); ("spotify", "spotify"); ("steam", "steam"); ("vscode", "code");
   ("gimp", "gimp"); ("inkscape", "inkscape")].

(** [platformApps[app]] also finds what an object literal inherits: of the
    inherited names only these two survive [toLowerCase], and neither is a
    string, so [exec] refuses it. *)
Definition inherited_key (app : string) : bool :=
  (app =? "constructor") || (app =? "__proto__").

Definition openSpecificApplication (appName : string) : M unit :=
  let app := toLowerCase appName in
  let platformApps :=
    if platform =? "win32" then appMappings_win32
    else if platform =? "darwin" then appMappings_darwin
    else appMappings_linux in
  if inherited_key app then throw execArgumentError
  else
    let command :=
      match lookup app platformApps with
      | Some c => c
      | None =>
          if platform =? "win32" then "start " ++ appName
          else if platform =? "darwin" then "open -a " ++ quoted appName
          else appName
      end in
    exec_or_reject command (app_not_found appName).

(** [Math.ceil(seconds / 60)].  The code divides doubles; below 2^53 the
    quotient is off by less than 1/60, so its ceiling is this number. *)
Definition ceil_minutes (seconds : N) : N := ((seconds + 59) / 60)%N.

Definition systemShutdown (seconds : N) : M unit :=
  let command :=
    if platform =? "darwin" then "sudo shutdown -h +" ++ toString (ceil_minutes seconds)
    else if platform =? "win32" then "shutdown /s /t " ++ toString seconds
    else "sudo shutdown -h +" ++ toString (ceil_minutes seconds) in
  exec_or_reject command
    "Shutdown command not available or requires administrator privileges.".

Definition systemRestart : M unit :=
  let command :=
    if platform =? "darwin" then "sudo shutdown -r now"
    else if platform =? "win32" then "shutdown /r /t 10"
    else "sudo reboot" in
  exec_or_reject command
    "Restart command not available or requires administrator privileges.".

Definition systemSleep : M unit :=
  let command :=
    if platform =? "darwin" then "pmset sleepnow"
    else if platform =? "win32" then "rundll32.exe powrprof.dll,SetSuspendState 0,1,0"
    else "systemctl suspend" in
  exec_or_reject command
    "Sleep command not available or requires administrator privileges.".

Definition macCommands : list (string * string) :=
  [("up", "osascript -e " ++ quoted "set volume output volume (output volume of (get volume settings) + 10)");
   ("down", "osascript -e " ++ quoted "set volume output volume (output volume of (get volume settings) - 10)");
   ("mute", "osascript -e " ++ quoted "set volume output muted true")].
Definition winCommands : list (string * string) :=
  [("up", "nircmd.exe changesysvolume 6553"); ("down", "nircmd.exe changesysvolume -6553");
   ("mute", "nircmd.exe mutesysvolume 1")].
Definition linuxCommands : list (string * string) :=
  [("up", "amixer -D pulse sset Master 10%+"); ("down", "amixer -D pulse sset Master 10%-");
   ("mute", "amixer -D pulse sset Master mute")].

Definition adjustVolume (action : string) : M unit :=
  let command :=
    if platform =? "darwin" then lookup action macCommands
    else if platform =? "win32" then lookup action winCommands
    else lookup action linuxCommands in
  match command with
  | Some c =>
      exec_or_reject c
        "Volume control not available. Please ensure audio system is properly configured."
  | None => throw (newError "Volume control not available on this platform")
  end.

(* ------------------------------------------------------------------ *)
(** *** Informational queries *)

Definition nl : string := String (ascii_of_nat 10) EmptyString.

(** [try { x = await m } catch (e) { x = fallback }] *)
Definition attempt (m : M string) (fallback : string) : M string :=
  try_catch m (fun _ => ret fallback).

Definition by_platform (A : Type) (win32 darwin other : A) : A :=
  if platform =? "win32" then win32
  else if platform =? "darwin" then darwin
  else other.

Definition getSystemInfo : M string :=
  host <- ask hostname ;;
  uptime <- ask uptimeHours ;;
  totalMem <- ask totalMemGB ;;
  freeMem <- ask freeMemGB ;;
  usedMem <- ask usedOfRoundedGB ;;
  osInfo <- attempt
    (executeCommand (by_platform
       "wmic os get Caption,Version /format:list"
       "sw_vers"
       "lsb_release -a 2>/dev/null || cat /etc/os-release"))
    (platform ++ " " ++ arch) ;;
  ret ("💻 System Information:" ++ nl ++
       "🖥️ Hostname: " ++ host ++ nl ++
       "⚙️ Platform: " ++ platform ++ " (" ++ arch ++ ")" ++ nl ++
       "🕐 Uptime: " ++ uptime ++ " hours" ++ nl ++
       "🧠 Memory: " ++ usedMem ++ "GB used / " ++ totalMem ++ "GB total (" ++
         freeMem ++ "GB free)" ++ nl ++
       "📋 OS Details: " ++ substring 0 200 osInfo).

Definition getMemoryInfo : M string :=
  totalGB <- ask totalMemGB ;;
  usedGB <- ask usedMemGB ;;
  freeGB <- ask freeMemGB ;;
  usagePercent <- ask memUsagePercent ;;
  detailedInfo <- attempt
    (executeCommand (by_platform
       "wmic memorychip get Capacity,Speed,Manufacturer /format:list"
       "system_profiler SPMemoryDataType"
       ("sudo dmidecode --type memory 2>/dev/null | grep -E " ++
          quoted "Size|Speed|Type:" ++ " || free -h")))
    "Detailed memory info not available" ;;
  ret ("🧠 Memory Information:" ++ nl ++
       "📊 Total RAM: " ++ totalGB ++ " GB" ++ nl ++
       "✅ Used: " ++ usedGB ++ " GB (" ++ usagePercent ++ "%)" ++ nl ++
       "🆓 Free: " ++ freeGB ++ " GB" ++ nl ++
       "📋 Details: " ++ substring 0 300 detailedInfo).

Definition getStorageInfo : M string :=
  storageInfo <- attempt
    (executeCommand (by_platform
       "wmic logicaldisk get Size,FreeSpace,Caption /format:list"
       "df -h / && diskutil list"
       "df -h --total && lsblk"))
    "Storage information not available" ;;
  ret ("💾 Storage Information:" ++ nl ++ storageInfo).

Definition getCPUInfo : M string :=
  cs <- ask cpus ;;
  match cs with
  | [] => throw undefinedReadError                    (* cpus[0].model *)
  | (cpuModel, cpuSpeed) :: _ =>
      detailedInfo <- attempt
        (executeCommand (by_platform
           "wmic cpu get Name,NumberOfCores,NumberOfLogicalProcessors,MaxClockSpeed /format:list"
           "sysctl -n machdep.cpu.brand_string && sysctl -n hw.ncpu"
           "lscpu"))
        "Detailed CPU info not available" ;;
      ret ("⚡ CPU Information:" ++ nl ++
           "🔧 Model: " ++ cpuModel ++ nl ++
           "🔢 Cores: " ++ toString (N.of_nat (List.length cs)) ++ nl ++
           "⚡ Speed: " ++ cpuSpeed ++ " MHz" ++ nl ++
           "📋 Details: " ++ substring 0 400 detailedInfo)
  end.

Definition iface_lines (name : string) (interfaces : list Iface) : string :=
  fold_left
    (fun acc iface =>
       if internal iface then acc
       else acc ++ "📡 " ++ name ++ ": " ++ address iface ++ " (" ++ family iface ++ ")" ++ nl)
    interfaces "".

Definition getNetworkInfo : M string :=
  ifs <- ask networkInterfaces ;;
  let networkInfo :=
    fold_left (fun acc entry => acc ++ iface_lines (fst entry) (snd entry))
      ifs ("🌐 Network Information:" ++ nl) in
  try_catch
    (additionalInfo <- executeCommand
        (if platform =? "win32" then "ipconfig /all" else "ifconfig || ip addr show") ;;
     ret (networkInfo ++ nl ++ "📋 Details: " ++ substring 0 300 additionalInfo))
    (fun _ => ret (networkInfo ++ nl ++ "📋 Additional network details not available")).

Definition getBatteryInfo : M string :=
  try_catch
    (batteryInfo <- executeCommand (by_platform
        "wmic path Win32_Battery get EstimatedChargeRemaining,BatteryStatus /format:list"
        "pmset -g batt"
        "upower -i /org/freedesktop/UPower/devices/battery_BAT0 2>/dev/null || cat /sys/class/power_supply/BAT*/capacity 2>/dev/null") ;;
     if truthy (trim batteryInfo)
     then ret ("🔋 Battery Information:" ++ nl ++ batteryInfo)
     else ret "🔋 Battery: Not available (Desktop computer or battery info inaccessible)")
    (fun _ => ret "🔋 Battery: Information not available").

Definition getTemperatureInfo : M string :=
  try_catch
    (tempInfo <- executeCommand (by_platform
        "wmic /namespace:\\root\wmi PATH MSAcpi_ThermalZoneTemperature get CurrentTemperature /format:list"
        ("sudo powermetrics --samplers smc -n 1 2>/dev/null | grep -i temp || echo " ++
           quoted "Temperature monitoring requires admin privileges")
        "sensors 2>/dev/null || cat /sys/class/thermal/thermal_zone*/temp 2>/dev/null") ;;
     if truthy (trim tempInfo)
     then ret ("🌡️ Temperature Information:" ++ nl ++ tempInfo)
     else ret "🌡️ Temperature: Sensors not available or require additional permissions")
    (fun _ => ret "🌡️ Temperature: Information not available").

(* ------------------------------------------------------------------ *)
(** *** The conditions of the [if ... else if ...] chain, top to bottom *)

Section Conditions.
Variable cmd : string.

Definition is_open_url : bool :=
  includes cmd "open" &&
  (includes cmd ".com" || includes cmd ".org" || includes cmd ".net" || includes cmd ".io").
Definition is_search : bool := includes cmd "search" || includes cmd "google".
Definition is_youtube : bool := includes cmd "youtube".
Definition is_time : bool := includes cmd "time" || includes cmd "what time".
Definition is_date : bool := includes cmd "date" || includes cmd "what date".
Definition is_weather : bool := includes cmd "weather".
Definition is_calculator : bool := includes cmd "calculator" || includes cmd "calc".
Definition is_notepad : bool := includes cmd "notepad" || includes cmd "text editor".
Definition is_whatsapp : bool := includes cmd "whatsapp" || includes cmd "open whatsapp".
Definition is_files : bool :=
  includes cmd "file manager" || includes cmd "explorer" || includes cmd "files".
Definition is_settings : bool := includes cmd "settings" || includes cmd "control panel".
Definition is_launch : bool :=
  includes cmd "open" || includes cmd "launch" || includes cmd "start".
Definition is_shutdown : bool := includes cmd "shutdown".
Definition is_restart : bool := includes cmd "restart" || includes cmd "reboot".
Definition is_sleep : bool := includes cmd "sleep" || includes cmd "hibernate".
Definition is_volume_up : bool := includes cmd "volume up" || includes cmd "increase volume".
Definition is_volume_down : bool :=
  includes cmd "volume down" || includes cmd "decrease volume".
Definition is_mute : bool := includes cmd "mute" || includes cmd "volume off".
Definition is_system_info : bool :=
  includes cmd "system info" || includes cmd "system information" ||
  includes cmd "computer specs".
Definition is_memory : bool := includes cmd "ram" || includes cmd "memory".
Definition is_storage : bool :=
  includes cmd "storage" || includes cmd "disk space" || includes cmd "hard drive".
Definition is_cpu : bool := includes cmd "cpu" || includes cmd "processor".
Definition is_network : bool :=
  includes cmd "network" || includes cmd "ip address" || includes cmd "wifi".
Definition is_battery : bool :=
  includes cmd "battery" && (includes cmd "laptop" || includes cmd "computer").
Definition is_temperature : bool :=
  includes cmd "temperature" && (includes cmd "cpu" || includes cmd "system").

End Conditions.

(* ------------------------------------------------------------------ *)
(** *** The blocks of the chain

    Each block returns the values of [status] and [response] at its end;
    [response] starts as [''] and [status] as ['success']. *)

Definition Vars : Type := (string * string)%type.   (* status, response *)

Definition success (response : string) : M Vars := ret ("success", response).

Definition do_open_url (cmd : string) : M Vars :=
  match urlMatch cmd with
  | Some url => openWebsite url ;; success ("✅ Opening " ++ url)
  | None => success ""
  end.

Definition do_search (cmd : string) : M Vars :=
  let searchTerm := trim (replace_all ["search"; "google"] cmd) in
  if truthy searchTerm then
    openWebsite ("google.com/search?q=" ++ encodeURIComponent searchTerm) ;;
    success ("✅ Searching Google for: " ++ searchTerm)
  else success "".

Definition do_youtube (cmd : string) : M Vars :=
  let searchTerm := trim (replace_all ["youtube"; "search"; "on"] cmd) in
  if truthy searchTerm then
    openWebsite ("youtube.com/results?search_query=" ++ encodeURIComponent searchTerm) ;;
    success ("✅ Searching YouTube for: " ++ searchTerm)
  else
    openWebsite "youtube.com" ;;
    success "✅ Opening YouTube".

Definition do_time : M Vars :=
  now <- ask localeTime ;; success ("🕐 Current time: " ++ now).

Definition do_date : M Vars :=
  now <- ask localeDate ;; success ("📅 Current date: " ++ now).

Definition do_weather : M Vars :=
  openWebsite "weather.com" ;; success "🌤️ Opening weather information".

Definition do_calculator : M Vars :=
  openApplication "calculator" ;; success "🧮 Opening calculator".

Definition do_notepad : M Vars :=
  openApplication "notepad" ;; success "📝 Opening text editor".

Definition do_whatsapp (cmd : string) : M Vars :=
  if includes cmd "call" &&
     (includes cmd "mom" || includes cmd "dad" || includes cmd "friend") then
    let contact :=
      if includes cmd "mom" then "Mom" else if includes cmd "dad" then "Dad" else "Friend" in
    openWhatsAppCall contact ;;
    success ("📞 Calling " ++ contact ++ " on WhatsApp")
  else if includes cmd "message" || includes cmd "text" then
    let contact := match contactMatch cmd with Some c => c | None => "contact" end in
    openWhatsAppMessage contact ;;
    success ("💬 Opening WhatsApp chat with " ++ contact)
  else
    openApplication "whatsapp" ;;
    success "💬 Opening WhatsApp".

Definition do_files (cmd : string) : M Vars :=
  if includes cmd "downloads" then
    openFileLocation "downloads" ;; success "📁 Opening Downloads folder"
  else if includes cmd "documents" then
    openFileLocation "documents" ;; success "📁 Opening Documents folder"
  else if includes cmd "desktop" then
    openFileLocation "desktop" ;; success "📁 Opening Desktop folder"
  else
    openApplication "filemanager" ;; success "📁 Opening File Manager".

Definition do_settings (cmd : string) : M Vars :=
  if includes cmd "wifi" || includes cmd "network" then
    openSettings "network" ;; success "⚙️ Opening Network Settings"
  else if includes cmd "display" || includes cmd "screen" then
    openSettings "display" ;; success "⚙️ Opening Display Settings"
  else if includes cmd "sound" || includes cmd "audio" then
    openSettings "sound" ;; success "⚙️ Opening Sound Settings"
  else if includes cmd "bluetooth" then
    openSettings "bluetooth" ;; success "⚙️ Opening Bluetooth Settings"
  else
    openSettings "main" ;; success "⚙️ Opening System Settings".

Definition do_launch (cmd : string) : M Vars :=
  match appMatch cmd with
  | Some m =>
      let appName := trim m in
      openSpecificApplication appName ;;
      success ("🚀 Opening " ++ appName)
  | None => success ""
  end.

(** The [seconds] handed to [systemShutdown]. *)
Definition shutdown_seconds (cmd : string) : N :=
  match timeMatch cmd with
  | Some (digits, unit) =>
      let value := parseInt digits in
      if startsWith unit "minute" then (value * 60)%N else value
  | None => 60%N                                          (* default 1 minute *)
  end.

Definition do_shutdown (cmd : string) : M Vars :=
  let seconds := shutdown_seconds cmd in
  systemShutdown seconds ;;
  success ("⚠️ System will shutdown in " ++ toString seconds ++ " seconds").

Definition do_restart : M Vars := systemRestart ;; success "🔄 System restart initiated".
Definition do_sleep : M Vars := systemSleep ;; success "😴 System going to sleep".
Definition do_volume_up : M Vars := adjustVolume "up" ;; success "🔊 Volume increased".
Definition do_volume_down : M Vars := adjustVolume "down" ;; success "🔉 Volume decreased".
Definition do_mute : M Vars := adjustVolume "mute" ;; success "🔇 Volume muted".
Definition do_system_info : M Vars := info <- getSystemInfo ;; success info.
Definition do_memory : M Vars := info <- getMemoryInfo ;; success info.
Definition do_storage : M Vars := info <- getStorageInfo ;; success info.
Definition do_cpu : M Vars := info <- getCPUInfo ;; success info.
Definition do_network : M Vars := info <- getNetworkInfo ;; success info.
Definition do_battery : M Vars := info <- getBatteryInfo ;; success info.
Definition do_temperature : M Vars := info <- getTemperatureInfo ;; success info.

Definition not_recognized : string :=
  "❌ Command not recognized. Try: " ++ quoted "open google.com" ++ ", " ++
  quoted "search weather" ++ ", " ++ quoted "open calculator" ++ ", or " ++
  quoted "what time is it".

Definition do_default : M Vars := ret ("error", not_recognized).

(** The body of the [try] block. *)
Definition processCommand_try (cmd : string) : M Vars :=
  if is_open_url cmd then do_open_url cmd
  else if is_search cmd then do_search cmd
  else if is_youtube cmd then do_youtube cmd
  else if is_time cmd then do_time
  else if is_date cmd then do_date
  else if is_weather cmd then do_weather
  else if is_calculator cmd then do_calculator
  else if is_notepad cmd then do_notepad
  else if is_whatsapp cmd then do_whatsapp cmd
  else if is_files cmd then do_files cmd
  else if is_settings cmd then do_settings cmd
  else if is_launch cmd then do_launch cmd
  else if is_shutdown cmd then do_shutdown cmd
  else if is_restart cmd then do_restart
  else if is_sleep cmd then do_sleep
  else if is_volume_up cmd then do_volume_up
  else if is_volume_down cmd then do_volume_down
  else if is_mute cmd then do_mute
  else if is_system_info cmd then do_system_info
  else if is_memory cmd then do_memory
  else if is_storage cmd then do_storage
  else if is_cpu cmd then do_cpu
  else if is_network cmd then do_network
  else if is_battery cmd then do_battery
  else if is_temperature cmd then do_temperature
  else do_default.

(** The [catch] block: [status = 'error'] and a message chosen by the error. *)
Definition error_response (error : JsError) : string :=
  if code_is_127 error then
    "❌ Application not found or not installed. Please ensure the requested application is installed and accessible."
  else if includes (message error) "ENOENT" then
    "❌ Command not available on this system. This feature may require additional software installation."
  else if includes (message error) "permission" then
    "❌ Permission denied. This command may require administrator privileges."
  else "❌ Error executing command: " ++ message error.

Record Outcome : Type := mkOutcome { status : string; response : string }.

(** [CommandProcessor.processCommand(commandText, userAgent = '')] *)
Definition processCommand (commandText userAgent : string) : M Outcome :=
  let cmd := trim (toLowerCase commandText) in
  vars <- try_catch (processCommand_try cmd)
            (fun error => ret ("error", error_response error)) ;;
  ret (mkOutcome (fst vars) (snd vars)).

End CommandProcessor.

(* ================================================================== *)
(** ** The decision view of the chain *)
(* ================================================================== *)

(** The rules of the chain, named after their blocks, in source order. *)
Inductive Rule : Type :=
| OpenUrl | WebSearch | VideoSearch | GetTime | GetDate | OpenWeather | Calculator | TextEditor
| WhatsApp | FileLocation | OpenSettings | LaunchNamedApp | Shutdown | Reboot | Sleep
| VolumeUp | VolumeDown | Mute | SystemInfo | MemoryInfo | StorageInfo | CpuInfo
| NetworkInfo | BatteryInfo | TemperatureInfo.

Definition chain : list Rule :=
  [OpenUrl; WebSearch; VideoSearch; GetTime; GetDate; OpenWeather; Calculator; TextEditor;
   WhatsApp; FileLocation; OpenSettings; LaunchNamedApp; Shutdown; Reboot; Sleep;
   VolumeUp; VolumeDown; Mute; SystemInfo; MemoryInfo; StorageInfo; CpuInfo;
   NetworkInfo; BatteryInfo; TemperatureInfo].

Definition condition (r : Rule) : string -> bool :=
  match r with
  | OpenUrl => is_open_url | WebSearch => is_search | VideoSearch => is_youtube
  | GetTime => is_time | GetDate => is_date | OpenWeather => is_weather
  | Calculator => is_calculator | TextEditor => is_notepad | WhatsApp => is_whatsapp
  | FileLocation => is_files | OpenSettings => is_settings | LaunchNamedApp => is_launch
  | Shutdown => is_shutdown | Reboot => is_restart | Sleep => is_sleep
  | VolumeUp => is_volume_up | VolumeDown => is_volume_down | Mute => is_mute
  | SystemInfo => is_system_info | MemoryInfo => is_memory | StorageInfo => is_storage
  | CpuInfo => is_cpu | NetworkInfo => is_network | BatteryInfo => is_battery
  | TemperatureInfo => is_temperature
  end.

Definition block {H : Host} (r : Rule) (cmd : string) : M Vars :=
  match r with
  | OpenUrl => do_open_url cmd | WebSearch => do_search cmd | VideoSearch => do_youtube cmd
  | GetTime => do_time | GetDate => do_date | OpenWeather => do_weather
  | Calculator => do_calculator | TextEditor => do_notepad | WhatsApp => do_whatsapp cmd
  | FileLocation => do_files cmd | OpenSettings => do_settings cmd | LaunchNamedApp => do_launch cmd
  | Shutdown => do_shutdown cmd | Reboot => do_restart | Sleep => do_sleep
  | VolumeUp => do_volume_up | VolumeDown => do_volume_down | Mute => do_mute
  | SystemInfo => do_system_info | MemoryInfo => do_memory | StorageInfo => do_storage
  | CpuInfo => do_cpu | NetworkInfo => do_network | BatteryInfo => do_battery
  | TemperatureInfo => do_temperature
  end.

Definition Rule_eq_dec (a b : Rule) : {a = b} + {a <> b}.
Proof. decide equality. Defined.

(** The first rule of [rs] whose condition holds on [cmd]. *)
Fixpoint first_match (rs : list Rule) (cmd : string) : option Rule :=
  match rs with
  | [] => None
  | r :: rs' => if condition r cmd then Some r else first_match rs' cmd
  end.

(** The rule that fires on [cmd]; [None] is the final [else]. *)
Definition classify (cmd : string) : option Rule := first_match chain cmd.

(** What the chain runs for a classification. *)
Definition dispatch {H : Host} (c : option Rule) (cmd : string) : M Vars :=
  match c with
  | Some r => block r cmd
  | None => do_default
  end.

(** A computation that, when it returns, leaves [status] at one of its two
    values. *)
Definition status_ok {H : Host} (m : M Vars) : Prop :=
  forall w v w', m w = (Ok v, w') -> fst v = "success" \/ fst v = "error".

(** The rules of [rs] that stand before [r]. *)
Fixpoint rules_before (r : Rule) (rs : list Rule) : list Rule :=
  match rs with
  | [] => []
  | x :: rs' => if Rule_eq_dec x r then [] else x :: rules_before r rs'
  end.

(** No rule standing before [r] in the chain matches [cmd]. *)
Definition none_before (r : Rule) (cmd : string) : bool :=
  forallb (fun x => negb (condition x cmd)) (rules_before r chain).

(** The duration as the specification words it: a magnitude and unit found
    in the text that follows "shutdown". *)
Fixpoint text_after (needle s : string) : option string :=
  match strip_prefix needle s with
  | Some tail => Some tail
  | None =>
      match s with
      | EmptyString => None
      | String _ s' => text_after needle s'
      end
  end.

Definition seconds_of (m : option (string * string)) : N :=
  match m with
  | Some (digits, unit) =>
      if startsWith unit "minute" then (parseInt digits * 60)%N else parseInt digits
  | None => 60%N
  end.

Definition spec_shutdown_seconds (cmd : string) : N :=
  match text_after "shutdown" cmd with
  | Some tail => seconds_of (timeMatch tail)
  | None => 60%N
  end.

(** [s] begins with a magnitude-and-unit phrase: the digits [ds], white
    space or none, then "second" or "minute", taken with the "s" that may
    follow. *)
Definition phrase_at (s ds unit : string) : Prop :=
  exists ws word rest : string,
    s = ds ++ ws ++ word ++ rest /\
    ds <> "" /\ every is_digit ds = true /\ every is_space ws = true /\
    (word = "second" \/ word = "minute") /\
    unit = (if startsWith rest "s" then word ++ "s" else word).

(** [ds] and [unit] are the first such phrase of [cmd]: one begins where
    [before] ends, and none begins anywhere inside [before]. *)
Definition first_phrase (cmd ds unit : string) : Prop :=
  exists before t : string,
    cmd = before ++ t /\
    phrase_at t ds unit /\
    forall b1 b2 : string,
      before = b1 ++ b2 -> b2 <> "" ->
      forall ds' unit' : string, ~ phrase_at (b2 ++ t) ds' unit'.

(** No such phrase begins anywhere in [cmd]. *)
Definition no_phrase (cmd : string) : Prop :=
  forall before t ds unit : string, cmd = before ++ t -> ~ phrase_at t ds unit.

(** A host on which every command succeeds silently; its state is the log
    of the commands run and of the rejections left unhandled, newest
    first. *)
Definition quietHost : Host := {|
  World := list string;
  platform := "linux";
  arch := "x64";
  exec := fun _ command w => (mkExec None "" "", command :: w);
  localeTime := fun _ => "10:00:00 AM";
  localeDate := fun _ => "11/2/2026";
  hostname := fun _ => "laptop";
  uptimeHours := fun _ => "1";
  totalMemGB := fun _ => "16.00";
  freeMemGB := fun _ => "8.00";
  usedMemGB := fun _ => "8.00";
  usedOfRoundedGB := fun _ => "8.00";
  memUsagePercent := fun _ => "50.0";
  cpus := fun _ => [("cpu0", "2400")];
  networkInterfaces := fun _ => [];
  undefinedReadError := newError "Cannot read properties of undefined";
  execArgumentError := mkError (SymCode "ERR_INVALID_ARG_TYPE") "The command argument must be of type string";
  unhandledRejection := fun e w => ("unhandled rejection: " ++ message e) :: w
|}.

(* ================================================================== *)
(** ** Command history: [saveCommand], [getCommands], [clearCommands] *)
(* ================================================================== *)

Module History.

(** The object [/api/execute] hands to [saveCommand]. *)
Record CommandData : Type := mkData {
  d_text : string;
  d_type : string;
  d_status : string;
  d_response : string;
  d_userAgent : string
}.

(** [_id]: an [ObjectId] of the persistent store, or the string made by the
    in-memory path. *)
Inductive Id : Type :=
| ObjectId (hex : string)
| StringId (s : string).

(** A command as [saveCommand] returns it and [getCommands] lists it.  The
    optional fields are the ones an object may lack: [userAgent] after the
    projection, [platform] and [__v] on an in-memory command. *)
Record Command : Type := mkCommand {
  _id : Id;
  text : string;
  type : string;
  status : string;
  response : string;
  userAgent : option string;
  timestamp : N;
  platform : option string;
  __v : option N
}.

(** The two clock readings of the in-memory path, in milliseconds:
    [Date.now()] for [_id] and [new Date()] for [timestamp]. *)
Record Clock : Type := mkClock { date_now : N; new_date : N }.

(** The persistent store.  [Db] is its state; an operation returns [None]
    when its promise rejects.  [find_sorted] stands for
    [Command.find().sort({timestamp: -1}).limit(limit)] and returns whole
    documents. *)
Class Persistent : Type := {
  Db : Type;
  save : CommandData -> Db -> option Command * Db;
  find_sorted : Z -> Db -> option (list Command) * Db;
  deleteMany : Db -> option unit * Db
}.

(** [.select('-userAgent -__v')] *)
Definition select (c : Command) : Command :=
  mkCommand (_id c) (text c) (type c) (status c) (response c)
            None (timestamp c) (platform c) None.

(** [l.slice(0, limit)] *)
Definition slice0 (A : Type) (l : list A) (limit : Z) : list A :=
  if (limit <? 0)%Z
  then firstn (Z.to_nat (Z.of_nat (List.length l) + limit)) l
  else firstn (Z.to_nat limit) l.

Section Operations.
Context {P : Persistent}.

(** The module-level variables and the store behind them. *)
Record State : Type := mkState {
  inMemoryCommands : list Command;
  mongoConnected : bool;
  dbInitialized : bool;
  db : Db
}.

Definition initial (d : Db) : State := mkState [] false false d.

Definition set_db (st : State) (d : Db) : State :=
  mkState (inMemoryCommands st) (mongoConnected st) (dbInitialized st) d.
Definition set_mongoConnected (st : State) (b : bool) : State :=
  mkState (inMemoryCommands st) b (dbInitialized st) (db st).
Definition set_inMemoryCommands (st : State) (l : list Command) : State :=
  mkState l (mongoConnected st) (dbInitialized st) (db st).

(** A call either is still polling [dbInitialized] or has returned.  A call
    is modelled as one step taken in the state in which it passes the
    barrier; what follows its last [await] is one step in the source too. *)
Inductive Call (A : Type) : Type :=
| Waiting
| Returned (a : A) (st : State).
Arguments Waiting {A}.
Arguments Returned {A} a st.

(** [{ _id: Date.now().toString(), ...commandData, timestamp: new Date() }] *)
Definition in_memory_command (commandData : CommandData) (clk : Clock) : Command :=
  mkCommand (StringId (toString (date_now clk)))
            (d_text commandData) (d_type commandData) (d_status commandData)
            (d_response commandData) (Some (d_userAgent commandData))
            (new_date clk) None None.

(** The in-memory path of [saveCommand]. *)
Definition save_in_memory (commandData : CommandData) (clk : Clock) (st : State)
    : Call Command :=
  let command := in_memory_command commandData clk in
  let unshifted := command :: inMemoryCommands st in
  let kept :=
    if (100 <? List.length unshifted)%nat then firstn 100 unshifted else unshifted in
  Returned command (set_inMemoryCommands st kept).

Definition saveCommand (commandData : CommandData) (clk : Clock) (st : State)
    : Call Command :=
  if negb (dbInitialized st) then Waiting
  else if mongoConnected st then
    match save commandData (db st) with
    | (Some command, d) => Returned command (set_db st d)
    | (None, d) => save_in_memory commandData clk (set_mongoConnected (set_db st d) false)
    end
  else save_in_memory commandData clk st.

Definition list_in_memory (limit : Z) (st : State) : Call (list Command) :=
  Returned (slice0 (inMemoryCommands st) limit) st.

Definition getCommands (limit : Z) (st : State) : Call (list Command) :=
  if negb (dbInitialized st) then Waiting
  else if mongoConnected st then
    match find_sorted limit (db st) with
    | (Some docs, d) => Returned (map select docs) (set_db st d)
    | (None, d) => list_in_memory limit (set_mongoConnected (set_db st d) false)
    end
  else list_in_memory limit st.

Definition clearCommands (st : State) : Call unit :=
  if negb (dbInitialized st) then Waiting
  else if mongoConnected st then
    match deleteMany (db st) with
    | (Some _, d) => Returned tt (set_db st d)
    | (None, d) => Returned tt (set_inMemoryCommands (set_mongoConnected (set_db st d) false) [])
    end
  else Returned tt (set_inMemoryCommands st []).

(** The state a call leaves behind; a waiting call leaves it as it is. *)
Definition state_after (A : Type) (c : Call A) (st : State) : State :=
  match c with
  | Waiting => st
  | Returned _ st' => st'
  end.

(** What can happen to the module-level variables. *)
Inductive Event : Type :=
| ConnectSettled (ok : bool)      (* connectToMongoDB() settles, then dbInitialized = true *)
| ConnectionError                 (* mongoose.connection.on('error') *)
| ConnectionUp                    (* mongoose.connection.on('connected') *)
| SaveCommand (commandData : CommandData) (clk : Clock)
| GetCommands (limit : Z)
| ClearCommands.

Definition step (st : State) (e : Event) : State :=
  match e with
  | ConnectSettled ok =>
      mkState (inMemoryCommands st) ok true (db st)
  | ConnectionError => set_mongoConnected st false
  | ConnectionUp => set_mongoConnected st true
  | SaveCommand commandData clk => state_after (saveCommand commandData clk st) st
  | GetCommands limit => state_after (getCommands limit st) st
  | ClearCommands => state_after (clearCommands st) st
  end.

Definition run (st : State) (es : list Event) : State := fold_left step es st.

(** The states the process can be in. *)
Definition reachable (st : State) : Prop :=
  exists (d : Db) (es : list Event), st = run (initial d) es.

(** A store that has fallen back to memory and is past the barrier. *)
Definition degraded (st : State) : bool :=
  dbInitialized st && negb (mongoConnected st).

(** Saving a batch, oldest first. *)
Definition save_all (calls : list (CommandData * Clock)) (st : State) : State :=
  run st (map (fun c => SaveCommand (fst c) (snd c)) calls).

End Operations.

Arguments Waiting {P A}.
Arguments Returned {P A} a st.

(** A store whose every operation fails. *)
Definition unreachableStore : Persistent := {|
  Db := unit;
  save := fun _ d => (None, d);
  find_sorted := fun _ d => (None, d);
  deleteMany := fun d => (None, d)
|}.

(** A store that keeps its documents in a list, newest first, and never
    fails; it numbers the documents it is given. *)
Definition listStore : Persistent := {|
  Db := list Command;
  save := fun commandData docs =>
    let n := N.of_nat (List.length docs) in
    let doc := mkCommand (ObjectId (toString n))
                 (d_text commandData) (d_type commandData) (d_status commandData)
                 (d_response commandData) (Some (d_userAgent commandData))
                 n (Some "linux") (Some 0%N) in
    (Some doc, doc :: docs);
  find_sorted := fun limit docs => (Some (firstn (Z.to_nat limit) docs), docs);
  deleteMany := fun _ => (Some tt, [])
|}.

(** Sample requests for the examples below. *)
Definition firstData : CommandData :=
  mkData "open google.com" "text" "success" "Opening google.com" "Mozilla/5.0".
Definition secondData : CommandData :=
  mkData "what time is it" "voice" "success" "Current time: 10:00:00 AM" "Mozilla/5.0".

(** A degraded store over [unreachableStore] with an empty buffer. *)
Definition emptyDegraded : @State unreachableStore :=
  @mkState unreachableStore [] false true tt.

(** 101 requests, one per millisecond. *)
Definition manyCalls : list (CommandData * Clock) :=
  map (fun n : nat =>
         (mkData ("command " ++ toString (N.of_nat n)) "text" "success" "done" "Mozilla/5.0",
          mkClock (1700000000000 + N.of_nat n) (1700000000000 + N.of_nat n)))
      (seq 0 101).

End History.

(* ================================================================== *)
(** ** The API routes *)
(* ================================================================== *)

Module Api.

(** The JSON bodies the routes send. *)
Inductive Reply : Type :=
| Failure (error : string)                       (* { error } *)
| Executed (id : History.Id) (response status : string) (timestamp : N)
| Listed (commands : list History.Command)
| Cleared (message : string)                     (* { message } *)
| InfoText (info : string).                      (* { info } *)

(** The informational routes [/api/system-info] ... [/api/network-info]. *)
Inductive InfoRoute : Type :=
| SystemRoute | MemoryRoute | StorageRoute | CpuRoute | NetworkRoute.

Section Routes.
Context {H : Host} {P : History.Persistent}.

(** A request is either still suspended at the [dbInitialized] barrier or
    answered with an HTTP status and a body. *)
Inductive Served : Type :=
| Suspended (w : World) (st : History.State)
| Replied (code : N) (body : Reply) (w : World) (st : History.State).

(** [app.post('/api/execute', ...)] on a body whose [text] and [type], when
    present, are strings; [userAgentHeader] is [req.headers['user-agent']]. *)
Definition post_execute (text type userAgentHeader : option string)
    (clk : History.Clock) (w : World) (st : History.State) : Served :=
  let userAgent := match userAgentHeader with Some u => or_else u "" | None => "" end in
  let missing := Replied 400 (Failure "Missing required fields: text, type") w st in
  match text, type with
  | Some text', Some type' =>
      if negb (truthy text') || negb (truthy type') then missing
      else
        match processCommand text' userAgent w with
        | (Ok result, w') =>
            match History.saveCommand
                    (History.mkData text' type' (status result) (response result) userAgent)
                    clk st with
            | History.Returned command st' =>
                Replied 200
                  (Executed (History._id command) (response result) (status result)
                     (History.timestamp command))
                  w' st'
            | History.Waiting => Suspended w' st
            end
        | (Throw _, w') => Replied 500 (Failure "Internal server error") w' st
        end
  | _, _ => missing
  end.

(** [parseInt(req.query.limit) || 50], on the value of [parseInt]
    ([None] is [NaN]). *)
Definition history_limit (parsed : option Z) : Z :=
  match parsed with
  | Some n => if (n =? 0)%Z then 50%Z else n
  | None => 50%Z
  end.

(** [app.get('/api/history', ...)] *)
Definition get_history (parsed : option Z) (w : World) (st : History.State) : Served :=
  match History.getCommands (history_limit parsed) st with
  | History.Returned commands st' => Replied 200 (Listed commands) w st'
  | History.Waiting => Suspended w st
  end.

(** [app.delete('/api/history', ...)] *)
Definition delete_history (w : World) (st : History.State) : Served :=
  match History.clearCommands st with
  | History.Returned _ st' => Replied 200 (Cleared "History cleared successfully") w st'
  | History.Waiting => Suspended w st
  end.

Definition info_query (r : InfoRoute) : M string :=
  match r with
  | SystemRoute => getSystemInfo
  | MemoryRoute => getMemoryInfo
  | StorageRoute => getStorageInfo
  | CpuRoute => getCPUInfo
  | NetworkRoute => getNetworkInfo
  end.

Definition info_failure (r : InfoRoute) : string :=
  match r with
  | SystemRoute => "Failed to get system information"
  | MemoryRoute => "Failed to get memory information"
  | StorageRoute => "Failed to get storage information"
  | CpuRoute => "Failed to get CPU information"
  | NetworkRoute => "Failed to get network information"
  end.

(** [app.get('/api/system-info', ...)] and its four siblings. *)
Definition get_info (r : InfoRoute) (w : World) (st : History.State) : Served :=
  match info_query r w with
  | (Ok info, w') => Replied 200 (InfoText info) w' st
  | (Throw _, w') => Replied 500 (Failure (info_failure r)) w' st
  end.

End Routes.

End Api.

(* ================================================================== *)
(** ** Predicates on computations *)
(* ================================================================== *)

Section Predicates.
Context {H : Host}.

(** [m] returns in every state of the host, with a value that satisfies [Q]. *)
Definition returns_with (A : Type) (Q : A -> Prop) (m : M A) : Prop :=
  forall w, exists a w', m w = (Ok a, w') /\ Q a.

(** Whenever [m] returns, its value satisfies [Q]. *)
Definition yields (A : Type) (Q : A -> Prop) (m : M A) : Prop :=
  forall w a w', m w = (Ok a, w') -> Q a.


End Predicates.

(** A host on which no command is found: every [exec] ends with the exit
    status 127 of the shell, and there is no CPU to report. *)
Definition bareHost : Host := {|
  World := list string;
  platform := "linux";
  arch := "x64";
  exec := fun _ command w =>
    (mkExec (Some (mkError (ExitCode 127) ("Command failed: " ++ command))) "" "",
     command :: w);
  localeTime := fun _ => "10:00:00 AM";
  localeDate := fun _ => "11/2/2026";
  hostname := fun _ => "laptop";
  uptimeHours := fun _ => "1";
  totalMemGB := fun _ => "16.00";
  freeMemGB := fun _ => "8.00";
  usedMemGB := fun _ => "8.00";
  usedOfRoundedGB := fun _ => "8.00";
  memUsagePercent := fun _ => "50.0";
  cpus := fun _ => [];
  networkInterfaces := fun _ => [];
  undefinedReadError := newError "Cannot read properties of undefined";
  execArgumentError := mkError (SymCode "ERR_INVALID_ARG_TYPE") "The command argument must be of type string";
  unhandledRejection := fun e w => ("unhandled rejection: " ++ message e) :: w
|}.


(* ================================================================== *)
(** ** Properties of the chain *)
(* ================================================================== *)

Section ChainFacts.
Context {H : Host}.

(** The chain runs the block of the first rule that matches, and the final
    [else] when none does. *)
Lemma processCommand_try_dispatch (cmd : string) :
  processCommand_try cmd = dispatch (classify cmd) cmd.
Proof.
  unfold processCommand_try, classify, chain.
  cbn [first_match condition].
  repeat match goal with
         | |- context [if ?c then _ else _] => destruct c; [reflexivity|]
         end.
  reflexivity.
Qed.

Lemma bind_Ok (A B : Type) (m : M A) (k : A -> M B) (w w' : World) (b : B) :
  bind m k w = (Ok b, w') ->
  exists a w1, m w = (Ok a, w1) /\ k a w1 = (Ok b, w').
Proof.
  unfold bind. destruct (m w) as [[a|e] w1]; intros E.
  - exists a, w1. split; [reflexivity | exact E].
  - discriminate E.
Qed.

Lemma status_ok_success (r : string) : status_ok (success r).
Proof. intros w v w' E. inversion E. left. reflexivity. Qed.

Lemma status_ok_default : status_ok do_default.
Proof. intros w v w' E. inversion E. right. reflexivity. Qed.

Lemma status_ok_bind (A : Type) (m : M A) (k : A -> M Vars) :
  (forall a, status_ok (k a)) -> status_ok (bind m k).
Proof.
  intros Hk w v w' E. apply bind_Ok in E. destruct E as (a & w1 & _ & E).
  exact (Hk a w1 v w' E).
Qed.

Lemma status_ok_block (r : Rule) (cmd : string) : status_ok (block r cmd).
Proof.
  destruct r; cbn [block];
    unfold do_open_url, do_search, do_youtube, do_time, do_date, do_weather,
      do_calculator, do_notepad, do_whatsapp, do_files, do_settings, do_launch,
      do_shutdown, do_restart, do_sleep, do_volume_up, do_volume_down, do_mute,
      do_system_info, do_memory, do_storage, do_cpu, do_network, do_battery,
      do_temperature;
    repeat first
      [ apply status_ok_success
      | apply status_ok_bind; intros
      | match goal with
        | |- status_ok (if ?c then _ else _) => destruct c
        | |- status_ok (match ?x with Some _ => _ | None => _ end) => destruct x
        end ].
Qed.

Lemma status_ok_try (cmd : string) : status_ok (processCommand_try cmd).
Proof.
  rewrite processCommand_try_dispatch.
  destruct (classify cmd) as [r|]; cbn [dispatch].
  - apply status_ok_block.
  - apply status_ok_default.
Qed.

(** How [processCommand] finishes, by how its [try] block ends. *)
Lemma processCommand_unfold (commandText userAgent : string) (w : World) :
  processCommand commandText userAgent w =
  match processCommand_try (trim (toLowerCase commandText)) w with
  | (Ok v, w') => (Ok (mkOutcome (fst v) (snd v)), w')
  | (Throw e, w') => (Ok (mkOutcome "error" (error_response e)), w')
  end.
Proof.
  unfold processCommand, bind, try_catch, ret.
  destruct (processCommand_try _ w) as [[v|e] w']; reflexivity.
Qed.

End ChainFacts.

Lemma chain_NoDup : NoDup chain.
Proof.
  unfold chain.
  repeat (constructor; [cbn [In]; intros F;
    repeat (destruct F as [F|F]; [discriminate F|]); exact F |]).
  constructor.
Qed.

Lemma chain_complete (r : Rule) : In r chain.
Proof. destruct r; cbn; tauto. Qed.

Lemma first_match_spec (rs : list Rule) (cmd : string) (r : Rule) :
  NoDup rs ->
  (first_match rs cmd = Some r <->
   In r rs /\ condition r cmd = true /\
   forallb (fun x => negb (condition x cmd)) (rules_before r rs) = true).
Proof.
  induction rs as [|x rs IH]; intros ND.
  - cbn. split; [discriminate | tauto].
  - inversion ND as [|? ? Hx ND']; subst.
    cbn [first_match rules_before In].
    destruct (Rule_eq_dec x r) as [->|Hne].
    + destruct (condition r cmd) eqn:C.
      * split; [intros _; auto | reflexivity].
      * split; [intros E | intros (_ & F & _); discriminate F].
        apply IH in E; [|exact ND']. destruct E as (Hin & _). contradiction.
    + destruct (condition x cmd) eqn:C.
      * split.
        -- intros E. inversion E. contradiction.
        -- intros (_ & _ & F). cbn in F. rewrite C in F. discriminate F.
      * cbn [forallb]. rewrite C. cbn [negb andb].
        rewrite (IH ND'). split.
        -- intros (Hin & Hc & Hb). auto.
        -- intros ([E|Hin] & Hc & Hb); [contradiction | auto].
Qed.

(** A rule fires exactly when its condition holds and the condition of no
    rule before it does. *)
Lemma classify_Some (cmd : string) (r : Rule) :
  classify cmd = Some r <-> condition r cmd = true /\ none_before r cmd = true.
Proof.
  unfold classify, none_before.
  rewrite (first_match_spec cmd r chain_NoDup).
  pose proof (chain_complete r). tauto.
Qed.

Lemma first_match_None (rs : list Rule) (cmd : string) :
  first_match rs cmd = None <-> forall r, In r rs -> condition r cmd = false.
Proof.
  induction rs as [|x rs IH]; cbn [first_match In].
  - split; [intros _ r F; contradiction | reflexivity].
  - destruct (condition x cmd) eqn:C.
    + split; [discriminate|]. intros F. rewrite (F x) in C; [discriminate C | auto].
    + rewrite IH. split.
      * intros F r [<-|Hin]; auto.
      * intros F r Hin. apply F. auto.
Qed.

(** The final [else] is reached exactly when no condition holds. *)
Lemma classify_None (cmd : string) :
  classify cmd = None <-> forall r, condition r cmd = false.
Proof.
  unfold classify. rewrite first_match_None. split.
  - intros F r. apply F, chain_complete.
  - intros F r _. apply F.
Qed.

(* ================================================================== *)
(** ** Properties of [processCommand] *)
(* ================================================================== *)

(** [processCommand] hands its caller an outcome whose status is 'success'
    or 'error', in every state of every host: when its [try] block throws,
    the [catch] block turns the error into an outcome with status 'error'.
    What the [try] block cannot catch is the rejection that [whatsapp_exec]
    leaves unhandled. *)
Theorem processCommand_always_returns :
  forall (H : Host) (commandText userAgent : string) (w : World),
    (exists (o : Outcome) (w' : World),
        processCommand commandText userAgent w = (Ok o, w') /\
        (status o = "success" \/ status o = "error")) /\
    match processCommand_try (trim (toLowerCase commandText)) w with
    | (Ok v, w') =>
        processCommand commandText userAgent w = (Ok (mkOutcome (fst v) (snd v)), w')
    | (Throw e, w') =>
        processCommand commandText userAgent w =
        (Ok (mkOutcome "error" (error_response e)), w')
    end.
Proof.
  intros H commandText userAgent w.
  rewrite processCommand_unfold.
  pose proof (@status_ok_try H (trim (toLowerCase commandText)) w) as S.
  destruct (processCommand_try _ w) as [[v|e] w'].
  - split; [|reflexivity].
    exists (mkOutcome (fst v) (snd v)), w'. split; [reflexivity|].
    cbn [status]. exact (S v w' eq_refl).
  - split; [|reflexivity].
    exists (mkOutcome "error" (error_response e)), w'. split; [reflexivity|].
    right. reflexivity.
Qed.

(** C1: the claim fails on the code.  On a host where no launcher is found,
    "whatsapp call mom" fails twice: the WhatsApp link does not open, and
    neither does the web page that is tried in its place.  The second
    failure is not caught and not turned into an error outcome: the
    outcome says 'success' and the error is left to the runtime as an
    unhandled rejection. *)
Theorem whatsapp_fallback_failure_is_not_caught :
  @processCommand bareHost "whatsapp call mom" "" [] =
  (Ok (mkOutcome "success" "📞 Calling Mom on WhatsApp"),
   ["unhandled rejection: Web browser not found. Please ensure a web browser is installed and accessible.";
    "xdg-open " ++ quoted "https://web.whatsapp.com";
    "xdg-open whatsapp://call?phone=Mom"]).
Proof. vm_compute. reflexivity. Qed.

(** C2.  When the lower-cased, trimmed text [cmd] satisfies the condition
    of no rule, classification ends in the final [else], which sets status
    'error' and the fixed message naming example commands, and runs
    nothing on the host; so [processCommand] returns that outcome on every
    ASCII text that normalises to [cmd]. *)
Theorem unmatched_is_not_recognized :
  forall (H : Host) (cmd : string) (w : World),
    (forall r, condition r cmd = false) ->
    classify cmd = None /\
    processCommand_try cmd w = (Ok ("error", not_recognized), w) /\
    (forall commandText userAgent : string,
        ascii_text commandText = true ->
        trim (toLowerCase commandText) = cmd ->
        processCommand commandText userAgent w =
        (Ok (mkOutcome "error" not_recognized), w)) /\
    includes not_recognized (quoted "open google.com") = true /\
    includes not_recognized (quoted "search weather") = true /\
    includes not_recognized (quoted "open calculator") = true /\
    includes not_recognized (quoted "what time is it") = true.
Proof.
  intros H cmd w Hno.
  apply classify_None in Hno.
  assert (T : processCommand_try cmd w = (Ok ("error", not_recognized), w))
    by (rewrite processCommand_try_dispatch, Hno; reflexivity).
  split; [exact Hno|]. split; [exact T|]. split.
  - intros commandText userAgent _ E.
    rewrite processCommand_unfold, E, T. reflexivity.
  - repeat split; vm_compute; reflexivity.
Qed.

(** Scenario D: "asdkjf random text". *)
Lemma unmatched_is_not_recognized_witness :
  @processCommand quietHost "asdkjf random text" "Mozilla/5.0" [] =
  (Ok (mkOutcome "error" not_recognized), []).
Proof.
  refine (proj1 (proj2 (proj2
    (@unmatched_is_not_recognized quietHost "asdkjf random text" [] _)))
    "asdkjf random text" "Mozilla/5.0" eq_refl eq_refl).
  intros r. destruct r; vm_compute; reflexivity.
Defined.

(** C7, as stated, fails: "google settings shutdown" contains both words,
    yet the rule that fires is the web search, which stands before the
    settings rule. *)
Lemma settings_rule_wins_counterexample :
  includes (trim (toLowerCase "google settings shutdown")) "settings" = true /\
  includes (trim (toLowerCase "google settings shutdown")) "shutdown" = true /\
  classify (trim (toLowerCase "google settings shutdown")) = Some WebSearch /\
  classify (trim (toLowerCase "google settings shutdown")) <> Some OpenSettings /\
  @processCommand quietHost "google settings shutdown" "" [] =
  (Ok (mkOutcome "success" "✅ Searching Google for: settings shutdown"),
   ["xdg-open " ++ quoted "https://google.com/search?q=settings%20shutdown"]).
Proof.
  repeat split; try (vm_compute; reflexivity).
  vm_compute. discriminate.
Qed.

(** C7, amended.  The chain is first-match-wins: on a text that contains
    both "settings" and "shutdown" exactly one block runs, that of the
    first rule whose condition holds; that rule is the settings rule or
    one standing before it, never the shutdown rule, and it is the
    settings rule whenever no rule before the settings rule matches. *)
Theorem settings_shadows_shutdown :
  forall (H : Host) (cmd : string),
    includes cmd "settings" = true ->
    includes cmd "shutdown" = true ->
    exists r : Rule,
      classify cmd = Some r /\
      processCommand_try cmd = block r cmd /\
      condition r cmd = true /\
      none_before r cmd = true /\
      In r (rules_before LaunchNamedApp chain) /\
      r <> Shutdown /\
      (none_before OpenSettings cmd = true -> r = OpenSettings).
Proof.
  intros H cmd Hset Hshut.
  assert (Cs : condition OpenSettings cmd = true).
  { cbn [condition]. unfold is_settings. rewrite Hset. reflexivity. }
  destruct (classify cmd) as [r|] eqn:E.
  - pose proof (proj1 (classify_Some cmd r) E) as (Hc & Hb).
    assert (Hin : In r (rules_before LaunchNamedApp chain)).
    { destruct (in_dec Rule_eq_dec r (rules_before LaunchNamedApp chain)) as [i|n];
        [exact i|].
      exfalso.
      assert (Hb' : forallb (fun x => negb (condition x cmd)) (rules_before r chain) = true)
        by exact Hb.
      rewrite forallb_forall in Hb'.
      specialize (Hb' OpenSettings).
      rewrite Cs in Hb'. cbn [negb] in Hb'.
      assert (In OpenSettings (rules_before r chain)) as Hi.
      { destruct r; cbn; try tauto; exfalso; apply n; cbn; tauto. }
      specialize (Hb' Hi). discriminate Hb'. }
    exists r. split; [reflexivity|]. split.
    + rewrite processCommand_try_dispatch, E. reflexivity.
    + repeat split; try assumption.
      * intros ->. cbn in Hin. intuition discriminate.
      * intros Hn. assert (E' : classify cmd = Some OpenSettings)
          by (apply classify_Some; auto).
        congruence.
  - exfalso. rewrite classify_None in E. rewrite (E OpenSettings) in Cs. discriminate Cs.
Qed.

(** On "open settings then shutdown" the settings rule is the one that fires. *)
Lemma settings_shadows_shutdown_witness :
  exists r : Rule,
    classify "open settings then shutdown" = Some r /\
    @processCommand_try quietHost "open settings then shutdown" =
    block r "open settings then shutdown" /\
    condition r "open settings then shutdown" = true /\
    none_before r "open settings then shutdown" = true /\
    In r (rules_before LaunchNamedApp chain) /\
    r <> Shutdown /\
    (none_before OpenSettings "open settings then shutdown" = true -> r = OpenSettings).
Proof.
  apply (settings_shadows_shutdown quietHost "open settings then shutdown");
    vm_compute; reflexivity.
Defined.

(** C10, as stated, fails: "system battery temperature" contains "battery",
    neither "laptop" nor "computer", and matches no rule before the battery
    rule; the temperature rule, which comes after it, fires and the status
    is 'success'. *)
Lemma battery_falls_through_counterexample :
  includes (trim (toLowerCase "system battery temperature")) "battery" = true /\
  includes (trim (toLowerCase "system battery temperature")) "laptop" = false /\
  includes (trim (toLowerCase "system battery temperature")) "computer" = false /\
  none_before BatteryInfo (trim (toLowerCase "system battery temperature")) = true /\
  classify (trim (toLowerCase "system battery temperature")) = Some TemperatureInfo /\
  @processCommand quietHost "system battery temperature" "" [] =
  (Ok (mkOutcome "success" ("🌡️ Temperature Information:" ++ nl ++ "No output")),
   ["sensors 2>/dev/null || cat /sys/class/thermal/thermal_zone*/temp 2>/dev/null"]).
Proof. repeat split; vm_compute; reflexivity. Qed.

(** C10, amended.  On a lower-cased, trimmed text [cmd] that contains
    "battery" but neither "laptop" nor "computer", and matches no rule
    before the battery rule, the battery query does not run: the chain
    goes on to the temperature rule and, unless that one matches, to the
    final [else], so that [processCommand] returns status 'error' with the
    fixed message on every ASCII text that normalises to [cmd].  The
    battery rule fires only on texts that contain "battery" together with
    "laptop" or "computer". *)
Theorem battery_needs_laptop_or_computer :
  forall (H : Host) (cmd : string) (w : World),
    includes cmd "battery" = true ->
    includes cmd "laptop" = false ->
    includes cmd "computer" = false ->
    none_before BatteryInfo cmd = true ->
    classify cmd <> Some BatteryInfo /\
    (if is_temperature cmd
     then classify cmd = Some TemperatureInfo /\
          processCommand_try cmd = do_temperature
     else classify cmd = None /\
          processCommand_try cmd w = (Ok ("error", not_recognized), w) /\
          forall commandText userAgent : string,
            ascii_text commandText = true ->
            trim (toLowerCase commandText) = cmd ->
            processCommand commandText userAgent w =
            (Ok (mkOutcome "error" not_recognized), w)) /\
    (forall c : string,
        classify c = Some BatteryInfo ->
        includes c "battery" = true /\
        (includes c "laptop" = true \/ includes c "computer" = true)).
Proof.
  intros H cmd w Hb Hl Hc Hnb.
  assert (Cb : condition BatteryInfo cmd = false).
  { cbn [condition]. unfold is_battery. rewrite Hb, Hl, Hc. reflexivity. }
  assert (Hnt : none_before TemperatureInfo cmd = true).
  { unfold none_before in *. cbn in Hnb |- *.
    rewrite !andb_true_iff in Hnb |- *.
    unfold is_battery. rewrite Hb, Hl, Hc. cbn. tauto. }
  split; [|split].
  - intros E. apply classify_Some in E. destruct E as (E & _). congruence.
  - destruct (is_temperature cmd) eqn:Ct.
    + assert (E : classify cmd = Some TemperatureInfo)
        by (apply classify_Some; split; [exact Ct | exact Hnt]).
      split; [exact E|].
      rewrite processCommand_try_dispatch, E. reflexivity.
    + assert (E : classify cmd = None).
      { apply classify_None. intros r.
        unfold none_before in Hnt. cbn in Hnt. rewrite !andb_true_iff in Hnt.
        destruct r; cbn [condition]; try assumption;
          apply negb_true_iff; tauto. }
      assert (T : processCommand_try cmd w = (Ok ("error", not_recognized), w))
        by (rewrite processCommand_try_dispatch, E; reflexivity).
      split; [exact E|]. split; [exact T|].
      intros commandText userAgent _ N.
      rewrite processCommand_unfold, N, T. reflexivity.
  - intros c E. apply classify_Some in E. destruct E as (E & _).
    cbn [condition] in E. unfold is_battery in E.
    apply andb_true_iff in E. destruct E as (E1 & E2).
    apply orb_true_iff in E2. auto.
Qed.

(** The bare input "battery" is not recognized. *)
Lemma battery_needs_laptop_or_computer_witness :
  classify (trim (toLowerCase "battery")) <> Some BatteryInfo /\
  @processCommand quietHost "battery" "" [] = (Ok (mkOutcome "error" not_recognized), []).
Proof.
  pose proof (@battery_needs_laptop_or_computer quietHost "battery" []
                eq_refl eq_refl eq_refl eq_refl) as (A & B & _).
  split; [exact A|].
  exact (proj2 (proj2 B) "battery" "" eq_refl eq_refl).
Defined.

(** C9: the claim fails on the code.  On "search" the search rule fires
    with an empty search term, on "open" the launch rule fires with nothing
    to launch, and on "open .com" the URL rule fires without a URL: each
    time [response] keeps its initial value [''] and the status stays
    'success'. *)
Theorem response_can_be_empty :
  forall (H : Host) (userAgent : string) (w : World),
    processCommand "search" userAgent w = (Ok (mkOutcome "success" ""), w) /\
    processCommand "open" userAgent w = (Ok (mkOutcome "success" ""), w) /\
    processCommand "open .com" userAgent w = (Ok (mkOutcome "success" ""), w).
Proof.
  intros H userAgent w. repeat split; rewrite processCommand_unfold; reflexivity.
Qed.

(* ------------------------------------------------------------------ *)
(** *** The duration of a shutdown *)

Lemma space_not_digit (c : ascii) : is_space c = true -> is_digit c = false.
Proof.
  destruct c as [[] [] [] [] [] [] [] []]; vm_compute; intros E;
    first [reflexivity | discriminate E].
Qed.

Lemma leftmost_skip (A : Type) (m : string -> option A) (pre s : string) :
  (forall c t, In c (list_ascii_of_string pre) -> m (String c t) = None) ->
  leftmost m (pre ++ s) = leftmost m s.
Proof.
  induction pre as [|c pre IH]; intros Hm; [reflexivity|].
  cbn [append]. cbn [leftmost].
  rewrite (Hm c (pre ++ s)) by (left; reflexivity).
  apply IH. intros c' t Hin. apply Hm. right. exact Hin.
Qed.

Lemma every_In (p : ascii -> bool) (s : string) (c : ascii) :
  every p s = true -> In c (list_ascii_of_string s) -> p c = true.
Proof.
  induction s as [|x s IH]; cbn; [tauto|].
  rewrite andb_true_iff. intros (Hx & Hs) [<-|Hin]; auto.
Qed.

Lemma plus_then_run (A : Type) (p : ascii -> bool) (rest : string -> option A)
    (run tail : string) (a : A) :
  run <> "" ->
  every p run = true ->
  plus_then p rest tail = None ->
  rest tail = Some a ->
  plus_then p rest (run ++ tail) = Some (run, a).
Proof.
  intros Hne Hp Hstop Hrest.
  induction run as [|c run IH]; [congruence|].
  cbn in Hp. apply andb_true_iff in Hp. destruct Hp as (Hc & Hp).
  cbn [append plus_then]. rewrite Hc.
  destruct run as [|c' run'].
  - cbn [append]. rewrite Hstop, Hrest. reflexivity.
  - rewrite IH; [reflexivity | discriminate | exact Hp].
Qed.

Lemma spaces1_then_run (A : Type) (rest : string -> option A)
    (ws tail : string) (a : A) :
  ws <> "" ->
  every is_space ws = true ->
  spaces1_then rest tail = None ->
  rest tail = Some a ->
  spaces1_then rest (ws ++ tail) = Some a.
Proof.
  intros Hne Hws Hstop Hrest.
  induction ws as [|c ws IH]; [congruence|].
  cbn in Hws. apply andb_true_iff in Hws. destruct Hws as (Hc & Hws).
  cbn [append spaces1_then]. rewrite Hc.
  destruct ws as [|c' ws'].
  - cbn [append]. rewrite Hstop. exact Hrest.
  - rewrite IH; [reflexivity | discriminate | exact Hws].
Qed.

Lemma spaces0_then_run (A : Type) (rest : string -> option A)
    (ws tail : string) (a : A) :
  every is_space ws = true ->
  spaces1_then rest tail = None ->
  rest tail = Some a ->
  spaces0_then rest (ws ++ tail) = Some a.
Proof.
  intros Hws Hstop Hrest. unfold spaces0_then.
  destruct ws as [|c ws].
  - cbn [append]. rewrite Hstop. exact Hrest.
  - rewrite (@spaces1_then_run A rest (String c ws) tail a);
      [reflexivity | discriminate | exact Hws | exact Hstop | exact Hrest].
Qed.

(** The first digits-and-unit phrase of a text whose earlier part holds no
    digit is what [timeMatch] captures. *)
Lemma timeMatch_phrase (pre ds ws unit rest u : string) :
  every (fun c => negb (is_digit c)) pre = true ->
  ds <> "" ->
  every is_digit ds = true ->
  every is_space ws = true ->
  (unit = "minute" \/ unit = "second") ->
  u = (if startsWith rest "s" then unit ++ "s" else unit) ->
  timeMatch (pre ++ ds ++ ws ++ unit ++ rest) = Some (ds, u).
Proof.
  intros Hpre Hne Hds Hws Hunit ->. unfold timeMatch.
  rewrite leftmost_skip.
  - assert (Hu : time_unit (unit ++ rest) =
                 Some (if startsWith rest "s" then unit ++ "s" else unit)).
    { unfold startsWith. destruct Hunit as [-> | ->]; cbn; destruct (prefix "s" rest); reflexivity. }
    assert (Hs1 : spaces1_then time_unit (unit ++ rest) = None).
    { destruct Hunit as [-> | ->]; reflexivity. }
    assert (Hstop : plus_then is_digit (spaces0_then time_unit) (ws ++ unit ++ rest) = None).
    { destruct ws as [|c ws].
      - destruct Hunit as [-> | ->]; reflexivity.
      - cbn in Hws. apply andb_true_iff in Hws. destruct Hws as (Hc & _).
        cbn [append plus_then]. rewrite (space_not_digit c Hc). reflexivity. }
    pose proof (@spaces0_then_run _ time_unit ws (unit ++ rest) _ Hws Hs1 Hu) as Hrest.
    pose proof (@plus_then_run _ is_digit (spaces0_then time_unit) ds (ws ++ unit ++ rest) _
                  Hne Hds Hstop Hrest) as E.
    destruct ds as [|d ds']; [congruence|].
    cbn [append leftmost] in E |- *. rewrite E. reflexivity.
  - intros c t Hin. cbn [plus_then].
    pose proof (every_In _ pre c Hpre Hin) as Hc.
    apply negb_true_iff in Hc. rewrite Hc. reflexivity.
Qed.

(** C6, as stated, fails: the phrase is looked for in the whole text, not
    after "shutdown".  In "5 minutes shutdown" nothing follows "shutdown",
    so a duration read after it is absent and would default to 60 seconds;
    the code resolves 300 seconds. *)
Lemma duration_before_shutdown_counterexample :
  classify (trim (toLowerCase "5 minutes shutdown")) = Some Shutdown /\
  text_after "shutdown" (trim (toLowerCase "5 minutes shutdown")) = Some "" /\
  spec_shutdown_seconds (trim (toLowerCase "5 minutes shutdown")) = 60%N /\
  shutdown_seconds (trim (toLowerCase "5 minutes shutdown")) = 300%N /\
  @processCommand quietHost "5 minutes shutdown" "" [] =
  (Ok (mkOutcome "success" "⚠️ System will shutdown in 300 seconds"),
   ["sudo shutdown -h +5"]).
Proof. repeat split; vm_compute; reflexivity. Qed.

(* ================================================================== *)
(** ** Properties of the command history *)
(* ================================================================== *)

Module HistoryFacts.
Import History.

Section Facts.
Context {P : Persistent}.

Lemma truncate_firstn (A : Type) (l : list A) :
  (if (100 <? List.length l)%nat then firstn 100 l else l) = firstn 100 l.
Proof.
  destruct (100 <? List.length l)%nat eqn:E; [reflexivity|].
  apply Nat.ltb_ge in E. symmetry. apply firstn_all2. exact E.
Qed.

(** The in-memory path: the new command goes in front and the buffer is cut
    to its first 100 entries. *)
Lemma save_in_memory_eq (commandData : CommandData) (clk : Clock) (st : State) :
  save_in_memory commandData clk st =
  Returned (in_memory_command commandData clk)
    (set_inMemoryCommands st
       (firstn 100 (in_memory_command commandData clk :: inMemoryCommands st))).
Proof. unfold save_in_memory. rewrite truncate_firstn. reflexivity. Qed.

Lemma saveCommand_degraded (commandData : CommandData) (clk : Clock) (st : State) :
  degraded st = true ->
  saveCommand commandData clk st = save_in_memory commandData clk st.
Proof.
  unfold degraded, saveCommand. intros E.
  apply andb_true_iff in E. destruct E as (Ei & Ec).
  apply negb_true_iff in Ec. rewrite Ei, Ec. reflexivity.
Qed.

Lemma step_bounded (st : State) (e : Event) :
  (List.length (inMemoryCommands st) <= 100)%nat ->
  (List.length (inMemoryCommands (step st e)) <= 100)%nat.
Proof.
  intros B. destruct e as [ok| | |commandData clk|limit|]; cbn [step]; try exact B.
  - unfold saveCommand.
    destruct (dbInitialized st); cbn [negb state_after]; [|exact B].
    destruct (mongoConnected st).
    + destruct (save commandData (db st)) as [[command|] d]; cbn [state_after];
        [exact B|].
      rewrite save_in_memory_eq.
      cbn [state_after inMemoryCommands set_inMemoryCommands]. apply firstn_le_length.
    + rewrite save_in_memory_eq.
      cbn [state_after inMemoryCommands set_inMemoryCommands]. apply firstn_le_length.
  - unfold getCommands, list_in_memory.
    destruct (dbInitialized st); cbn [negb state_after]; [|exact B].
    destruct (mongoConnected st); [|exact B].
    destruct (find_sorted limit (db st)) as [[docs|] d]; cbn [state_after]; exact B.
  - unfold clearCommands.
    destruct (dbInitialized st); cbn [negb state_after]; [|exact B].
    destruct (mongoConnected st).
    + destruct (deleteMany (db st)) as [[u|] d]; cbn; [exact B | lia].
    + cbn. lia.
Qed.

Lemma run_bounded (es : list Event) (st : State) :
  (List.length (inMemoryCommands st) <= 100)%nat ->
  (List.length (inMemoryCommands (run st es)) <= 100)%nat.
Proof.
  revert st. induction es as [|e es IH]; intros st B; [exact B|].
  cbn [run fold_left]. apply IH, step_bounded, B.
Qed.

Lemma reachable_bounded (st : State) :
  reachable st -> (List.length (inMemoryCommands st) <= 100)%nat.
Proof.
  intros (d & es & ->). apply run_bounded. cbn. lia.
Qed.

Lemma firstn_app_firstn (A : Type) (n : nat) (l1 l2 : list A) :
  firstn n (l1 ++ firstn n l2) = firstn n (l1 ++ l2).
Proof.
  rewrite !firstn_app, firstn_firstn.
  replace (Nat.min (n - List.length l1) n) with (n - List.length l1)%nat by lia.
  reflexivity.
Qed.

(** A batch saved into a degraded store: the buffer holds the newest 100 of
    the batch followed by what was there, and the store stays degraded. *)
Lemma save_all_degraded (calls : list (CommandData * Clock)) (st : State) :
  degraded st = true ->
  (List.length (inMemoryCommands st) <= 100)%nat ->
  degraded (save_all calls st) = true /\
  inMemoryCommands (save_all calls st) =
  firstn 100 (rev (map (fun c => in_memory_command (fst c) (snd c)) calls)
              ++ inMemoryCommands st).
Proof.
  revert st. induction calls as [|c calls IH]; intros st D B.
  - unfold save_all. cbn [map run fold_left rev app]. split; [exact D|].
    symmetry. apply firstn_all2. exact B.
  - unfold save_all in *. cbn [map run fold_left step].
    rewrite (saveCommand_degraded (fst c) (snd c) st D), save_in_memory_eq.
    cbn [state_after].
    set (st1 := set_inMemoryCommands st _).
    assert (D1 : degraded st1 = true) by exact D.
    assert (B1 : (List.length (inMemoryCommands st1) <= 100)%nat)
      by (subst st1; cbn [inMemoryCommands set_inMemoryCommands]; apply firstn_le_length).
    destruct (IH st1 D1 B1) as (D2 & E). split; [exact D2|].
    fold (run st1 (map (fun c0 => SaveCommand (fst c0) (snd c0)) calls)).
    rewrite E. subst st1. cbn [inMemoryCommands set_inMemoryCommands].
    rewrite firstn_app_firstn. cbn [rev]. rewrite <- app_assoc. reflexivity.
Qed.

(** The persistent path of [getCommands] projects [userAgent] out of every
    document it returns. *)
Lemma getCommands_persistent_select (limit : Z) (st : State) (docs : list Command) (d : Db) :
  dbInitialized st = true ->
  mongoConnected st = true ->
  find_sorted limit (db st) = (Some docs, d) ->
  getCommands limit st = Returned (map select docs) (set_db st d) /\
  Forall (fun c => userAgent c = None) (map select docs).
Proof.
  intros Ei Ec Ef. unfold getCommands. rewrite Ei, Ec, Ef. split; [reflexivity|].
  apply Forall_forall. intros c Hin. apply in_map_iff in Hin.
  destruct Hin as (x & <- & _). reflexivity.
Qed.

End Facts.

(** C3.  When [saveCommand] finds [mongoConnected] set and the write to the
    persistent store fails, the same call clears [mongoConnected], puts the
    command at the head of the in-memory buffer and returns it: the caller
    gets a saved command carrying its data, not a failure. *)
Theorem save_survives_write_failure :
  forall (P : Persistent) (commandData : CommandData) (clk : Clock) (st : State),
    dbInitialized st = true ->
    mongoConnected st = true ->
    fst (save commandData (db st)) = None ->
    exists (command : Command) (st' : State),
      saveCommand commandData clk st = Returned command st' /\
      mongoConnected st' = false /\
      dbInitialized st' = true /\
      inMemoryCommands st' = firstn 100 (command :: inMemoryCommands st) /\
      hd_error (inMemoryCommands st') = Some command /\
      text command = d_text commandData /\
      type command = d_type commandData /\
      status command = d_status commandData /\
      response command = d_response commandData /\
      userAgent command = Some (d_userAgent commandData).
Proof.
  intros P commandData clk st Ei Ec Ef.
  unfold saveCommand. rewrite Ei, Ec. cbn [negb].
  destruct (save commandData (db st)) as [[command|] d]; cbn [fst] in Ef;
    [discriminate Ef|].
  rewrite save_in_memory_eq.
  eexists. eexists. split; [reflexivity|].
  cbn [mongoConnected dbInitialized inMemoryCommands set_inMemoryCommands
       set_mongoConnected set_db].
  repeat split; try reflexivity. exact Ei.
Qed.

(** A first save against a store that rejects every write. *)
Lemma save_survives_write_failure_witness :
  exists (command : Command) (st' : State),
    @saveCommand unreachableStore firstData (mkClock 1700000000000 1700000000000)
      (@mkState unreachableStore [] true true tt) = Returned command st' /\
    mongoConnected st' = false /\
    dbInitialized st' = true /\
    inMemoryCommands st' = firstn 100 (command :: []) /\
    hd_error (inMemoryCommands st') = Some command /\
    text command = d_text firstData /\
    type command = d_type firstData /\
    status command = d_status firstData /\
    response command = d_response firstData /\
    userAgent command = Some (d_userAgent firstData).
Proof.
  apply (@save_survives_write_failure unreachableStore firstData
           (mkClock 1700000000000 1700000000000)
           (@mkState unreachableStore [] true true tt));
    reflexivity.
Defined.

(** C4.  In every state the process can reach the in-memory buffer holds at
    most 100 commands.  A save that takes the in-memory path (the store is
    degraded, or the write has just failed) puts the new command in front
    and keeps the first 100; after 101 saves into a degraded store the
    buffer holds exactly 100 commands, the last 100 saved with the newest
    first, and the first one saved is gone. *)
Theorem buffer_holds_newest_100 :
  forall (P : Persistent) (st : State),
    reachable st ->
    (List.length (inMemoryCommands st) <= 100)%nat /\
    (forall (commandData : CommandData) (clk : Clock),
        dbInitialized st = true ->
        mongoConnected st = false \/ fst (save commandData (db st)) = None ->
        inMemoryCommands (state_after (saveCommand commandData clk st) st) =
        firstn 100 (in_memory_command commandData clk :: inMemoryCommands st)) /\
    (forall calls : list (CommandData * Clock),
        degraded st = true ->
        List.length calls = 101%nat ->
        List.length (inMemoryCommands (save_all calls st)) = 100%nat /\
        inMemoryCommands (save_all calls st) =
        rev (map (fun c => in_memory_command (fst c) (snd c)) (tl calls))).
Proof.
  intros P st R. pose proof (reachable_bounded R) as B.
  split; [exact B|]. split.
  - intros commandData clk Ei Hmem. unfold saveCommand. rewrite Ei. cbn [negb].
    destruct (mongoConnected st) eqn:Ec.
    + destruct Hmem as [F|F]; [discriminate F|].
      destruct (save commandData (db st)) as [[command|] d]; cbn [fst] in F;
        [discriminate F|].
      rewrite save_in_memory_eq. reflexivity.
    + rewrite save_in_memory_eq. reflexivity.
  - intros calls D L.
    destruct (save_all_degraded calls st D B) as (_ & E).
    destruct calls as [|c calls]; [discriminate L|].
    cbn [tl]. cbn [List.length] in L. injection L as L.
    assert (L' : List.length (rev (map (fun c0 => in_memory_command (fst c0) (snd c0)) calls))
                 = 100%nat) by (rewrite length_rev, length_map; exact L).
    assert (E' : inMemoryCommands (save_all (c :: calls) st) =
                 rev (map (fun c0 => in_memory_command (fst c0) (snd c0)) calls)).
    { rewrite E. cbn [map rev]. rewrite <- app_assoc.
      rewrite firstn_app, L', Nat.sub_diag, firstn_O, app_nil_r.
      apply firstn_all2. lia. }
    split; [rewrite E'; exact L' | exact E'].
Qed.

(** 101 saves into an empty degraded store. *)
Lemma buffer_holds_newest_100_witness :
  List.length (inMemoryCommands (save_all manyCalls emptyDegraded)) = 100%nat /\
  inMemoryCommands (save_all manyCalls emptyDegraded) =
  rev (map (fun c => in_memory_command (fst c) (snd c)) (tl manyCalls)).
Proof.
  assert (R : reachable emptyDegraded).
  { exists tt, [ConnectSettled false]. reflexivity. }
  destruct (@buffer_holds_newest_100 unreachableStore emptyDegraded R) as (_ & _ & F).
  apply (F manyCalls); reflexivity.
Defined.

(** C5: the claim fails on the in-memory path.  A command saved into a
    degraded store and listed back, with whatever positive limit, still
    carries the [userAgent] it was saved with. *)
Theorem in_memory_history_keeps_userAgent :
  forall (P : Persistent) (d : Db) (commandData : CommandData) (clk : Clock)
         (limit : positive),
    saveCommand commandData clk (mkState [] false true d) =
      Returned (in_memory_command commandData clk)
        (mkState [in_memory_command commandData clk] false true d) /\
    getCommands (Z.pos limit) (mkState [in_memory_command commandData clk] false true d) =
      Returned [in_memory_command commandData clk]
        (mkState [in_memory_command commandData clk] false true d) /\
    userAgent (in_memory_command commandData clk) = Some (d_userAgent commandData).
Proof.
  intros P d commandData clk limit. split; [reflexivity|]. split; [|reflexivity].
  unfold getCommands, list_in_memory, slice0. cbn [dbInitialized mongoConnected negb inMemoryCommands].
  replace (Z.pos limit <? 0)%Z with false by (symmetry; apply Z.ltb_ge; lia).
  destruct (Z.to_nat (Z.pos limit)) as [|n] eqn:E; [lia|].
  cbn [firstn]. destruct n; reflexivity.
Qed.

(** C8: the claim fails on the code.  Two different commands saved into a
    degraded store within the same millisecond get the same [_id]: the
    in-memory path makes the id from the clock alone, where the persistent
    path gets a fresh [ObjectId] for every document. *)
Lemma same_millisecond_same_id :
  saveCommand firstData (mkClock 1700000000000 1700000000000) emptyDegraded =
    Returned (in_memory_command firstData (mkClock 1700000000000 1700000000000))
      (@mkState unreachableStore
         [in_memory_command firstData (mkClock 1700000000000 1700000000000)]
         false true tt) /\
  saveCommand secondData (mkClock 1700000000000 1700000000000)
      (@mkState unreachableStore
         [in_memory_command firstData (mkClock 1700000000000 1700000000000)]
         false true tt) =
    Returned (in_memory_command secondData (mkClock 1700000000000 1700000000000))
      (@mkState unreachableStore
         [in_memory_command secondData (mkClock 1700000000000 1700000000000);
          in_memory_command firstData (mkClock 1700000000000 1700000000000)]
         false true tt) /\
  in_memory_command firstData (mkClock 1700000000000 1700000000000) <>
  in_memory_command secondData (mkClock 1700000000000 1700000000000) /\
  _id (in_memory_command firstData (mkClock 1700000000000 1700000000000)) =
  _id (in_memory_command secondData (mkClock 1700000000000 1700000000000)) /\
  _id (in_memory_command firstData (mkClock 1700000000000 1700000000000)) =
  StringId "1700000000000".
Proof.
  split; [reflexivity|]. split; [reflexivity|]. split; [|split; reflexivity].
  intros E. apply (f_equal text) in E. discriminate E.
Qed.

End HistoryFacts.

(* ================================================================== *)
(** ** Further properties: text normalisation and substring search *)
(* ================================================================== *)

Lemma lower_char_idem (c : ascii) : lower_char (lower_char c) = lower_char c.
Proof. destruct c as [[] [] [] [] [] [] [] []]; vm_compute; reflexivity. Qed.

Lemma is_space_lower_char (c : ascii) : is_space (lower_char c) = is_space c.
Proof. destruct c as [[] [] [] [] [] [] [] []]; vm_compute; reflexivity. Qed.

Lemma toLowerCase_idem (s : string) : toLowerCase (toLowerCase s) = toLowerCase s.
Proof.
  induction s as [|c s IH]; [reflexivity|].
  cbn [toLowerCase]. rewrite lower_char_idem, IH. reflexivity.
Qed.

Lemma toLowerCase_empty (s : string) : (toLowerCase s =? "") = (s =? "").
Proof. destruct s; reflexivity. Qed.

Lemma trimStart_toLowerCase (s : string) :
  trimStart (toLowerCase s) = toLowerCase (trimStart s).
Proof.
  induction s as [|c s IH]; [reflexivity|].
  cbn [toLowerCase trimStart]. rewrite is_space_lower_char.
  destruct (is_space c); [exact IH | reflexivity].
Qed.

Lemma trimEnd_toLowerCase (s : string) :
  trimEnd (toLowerCase s) = toLowerCase (trimEnd s).
Proof.
  induction s as [|c s IH]; [reflexivity|].
  cbn [toLowerCase trimEnd]. rewrite is_space_lower_char, IH, toLowerCase_empty.
  destruct (is_space c && (trimEnd s =? "")); reflexivity.
Qed.

Lemma trimEnd_idem (s : string) : trimEnd (trimEnd s) = trimEnd s.
Proof.
  induction s as [|c s IH]; [reflexivity|].
  cbn [trimEnd]. destruct (is_space c && (trimEnd s =? "")) eqn:E; [reflexivity|].
  cbn [trimEnd]. rewrite IH, E. reflexivity.
Qed.

Lemma trimStart_fixed (s : string) :
  match s with EmptyString => True | String c _ => is_space c = false end ->
  trimStart s = s.
Proof. destruct s as [|c s]; [reflexivity|]. cbn. intros ->. reflexivity. Qed.

Lemma trimStart_head (s : string) :
  match trimStart s with EmptyString => True | String c _ => is_space c = false end.
Proof.
  induction s as [|c s IH]; [exact I|].
  cbn [trimStart]. destruct (is_space c) eqn:E; [exact IH | exact E].
Qed.

Lemma trim_idem (s : string) : trim (trim s) = trim s.
Proof.
  unfold trim.
  pose proof (trimStart_head s) as Hd.
  destruct (trimStart s) as [|c u] eqn:E; [reflexivity|].
  assert (F : trimEnd (String c u) = String c (trimEnd u))
    by (cbn [trimEnd]; rewrite Hd; reflexivity).
  rewrite F. rewrite trimStart_fixed by exact Hd.
  rewrite <- F. apply trimEnd_idem.
Qed.

(** Normalising a normalised text changes nothing. *)
Lemma normalise_idem (s : string) :
  trim (toLowerCase (trim (toLowerCase s))) = trim (toLowerCase s).
Proof.
  unfold trim at 2.
  rewrite trimStart_toLowerCase, trimEnd_toLowerCase, toLowerCase_idem.
  rewrite <- trimEnd_toLowerCase, <- trimStart_toLowerCase.
  apply trim_idem.
Qed.

(** X1.  [processCommand] reads its text only through its lower-cased,
    trimmed form and does not read [userAgent] at all: two calls whose
    texts normalise to the same string do the same thing in the same host
    state, whatever the user agents. *)
Theorem processCommand_reads_normalised_text :
  forall (H : Host) (text1 text2 userAgent1 userAgent2 : string) (w : World),
    trim (toLowerCase text1) = trim (toLowerCase text2) ->
    processCommand text1 userAgent1 w = processCommand text2 userAgent2 w /\
    processCommand (trim (toLowerCase text1)) userAgent2 w =
    processCommand text1 userAgent1 w.
Proof.
  intros H text1 text2 userAgent1 userAgent2 w E.
  rewrite !processCommand_unfold, normalise_idem, E. split; reflexivity.
Qed.

(** "  OPEN Google.COM " and "open google.com" are the same command. *)
Lemma processCommand_reads_normalised_text_witness :
  @processCommand quietHost "  OPEN Google.COM " "Mozilla/5.0" [] =
  @processCommand quietHost "open google.com" "" [].
Proof.
  apply (@processCommand_reads_normalised_text quietHost
           "  OPEN Google.COM " "open google.com" "Mozilla/5.0" "" []).
  reflexivity.
Defined.

Lemma prefix_app (p s : string) : String.prefix p (p ++ s) = true.
Proof.
  induction p as [|c p IH]; [destruct s; reflexivity|].
  cbn. destruct (ascii_dec c c) as [_|n]; [exact IH | contradiction].
Qed.

Lemma prefix_split (p s : string) :
  String.prefix p s = true -> exists t, s = p ++ t.
Proof.
  revert s. induction p as [|c p IH]; intros s E.
  - exists s. reflexivity.
  - destruct s as [|d s]; [discriminate E|].
    cbn in E. destruct (ascii_dec c d) as [->|n]; [|discriminate E].
    destruct (IH s E) as (t & ->). exists t. reflexivity.
Qed.

(** [includes] finds exactly the substrings. *)
Lemma includes_spec (s sub : string) :
  includes s sub = true <-> exists a b, s = a ++ sub ++ b.
Proof.
  split.
  - induction s as [|c s IH]; cbn [includes]; unfold startsWith; intros E.
    + rewrite orb_false_r in E. apply prefix_split in E.
      destruct E as (t & ->). exists "", t. reflexivity.
    + apply orb_true_iff in E. destruct E as [E|E].
      * apply prefix_split in E. destruct E as (t & ->). exists "", t. reflexivity.
      * destruct (IH E) as (a & b & ->). exists (String c a), b. reflexivity.
  - intros (a & b & ->). induction a as [|c a IH].
    + cbn [append]. destruct (sub ++ b) eqn:E; cbn [includes]; unfold startsWith;
        rewrite <- E, prefix_app; reflexivity.
    + cbn [append includes]. rewrite IH. apply orb_true_r.
Qed.

Lemma append_assoc (a b c : string) : (a ++ b) ++ c = a ++ b ++ c.
Proof. induction a as [|x a IH]; [reflexivity|]. cbn. rewrite IH. reflexivity. Qed.

Lemma includes_trans (s mid sub : string) :
  includes s mid = true -> includes mid sub = true -> includes s sub = true.
Proof.
  rewrite !includes_spec. intros (a & b & ->) (a' & b' & ->).
  exists (a ++ a'), (b' ++ b). rewrite !append_assoc. reflexivity.
Qed.

(* ================================================================== *)
(** ** Further properties: which rule answers *)
(* ================================================================== *)

Lemma first_match_earlier (rs : list Rule) (cmd : string) (r : Rule) :
  In r rs ->
  condition r cmd = true ->
  exists r', first_match rs cmd = Some r' /\ condition r' cmd = true /\
             (r' = r \/ In r' (rules_before r rs)).
Proof.
  induction rs as [|x rs IH]; intros Hin C; [contradiction|].
  cbn [first_match rules_before].
  destruct (Rule_eq_dec x r) as [->|Hne].
  - rewrite C. exists r. auto.
  - destruct (condition x cmd) eqn:Cx.
    + exists x. split; [reflexivity|]. split; [exact Cx|]. right. left. reflexivity.
    + destruct Hin as [E|Hin]; [contradiction|].
      destruct (IH Hin C) as (r' & E & C' & [->|B]).
      * exists r. auto.
      * exists r'. split; [exact E|]. split; [exact C'|]. right. right. exact B.
Qed.

(** X2.  A text on which the condition of a rule holds is always answered,
    and by that rule or by one standing before it in the chain: no rule
    after it is ever consulted. *)
Theorem matching_rule_or_earlier :
  forall (H : Host) (cmd : string) (r : Rule),
    condition r cmd = true ->
    exists r' : Rule,
      classify cmd = Some r' /\
      condition r' cmd = true /\
      (r' = r \/ In r' (rules_before r chain)) /\
      processCommand_try cmd = block r' cmd.
Proof.
  intros H cmd r C.
  destruct (@first_match_earlier chain cmd r (chain_complete r) C) as (r' & E & C' & B).
  exists r'. repeat split; try assumption.
  rewrite processCommand_try_dispatch. unfold classify. rewrite E. reflexivity.
Qed.

(** "sleep for some time" holds "sleep", but the time rule answers. *)
Lemma matching_rule_or_earlier_witness :
  exists r' : Rule,
    classify "sleep for some time" = Some r' /\
    condition r' "sleep for some time" = true /\
    (r' = Sleep \/ In r' (rules_before Sleep chain)) /\
    @processCommand_try quietHost "sleep for some time" = block r' "sleep for some time".
Proof.
  apply (@matching_rule_or_earlier quietHost "sleep for some time" Sleep).
  reflexivity.
Defined.

(** X3.  The temperature query runs only on a text that holds "temperature"
    and "system" and holds neither "cpu" nor "processor": with "cpu" in the
    text the CPU rule, which stands earlier, has already answered, so the
    "cpu" alternative of the temperature condition never decides. *)
Theorem temperature_only_through_system :
  forall cmd : string,
    classify cmd = Some TemperatureInfo ->
    includes cmd "temperature" = true /\
    includes cmd "system" = true /\
    includes cmd "cpu" = false /\
    includes cmd "processor" = false.
Proof.
  intros cmd E. apply classify_Some in E. destruct E as (C & B).
  unfold none_before in B. cbn in B. rewrite !andb_true_iff in B.
  assert (Cc : is_cpu cmd = false) by (apply negb_true_iff; tauto).
  unfold is_cpu in Cc. apply orb_false_iff in Cc. destruct Cc as (Cc & Cp).
  cbn [condition] in C. unfold is_temperature in C.
  apply andb_true_iff in C. destruct C as (Ct & Cs).
  rewrite Cc in Cs. cbn [orb] in Cs. auto.
Qed.

Lemma temperature_only_through_system_witness :
  includes "system temperature" "temperature" = true /\
  includes "system temperature" "system" = true /\
  includes "system temperature" "cpu" = false /\
  includes "system temperature" "processor" = false.
Proof.
  apply (@temperature_only_through_system "system temperature"). reflexivity.
Defined.

Lemma includes_absorb (s a b : string) :
  includes b a = true -> includes s a || includes s b = includes s a.
Proof.
  intros Hab. destruct (includes s a) eqn:Ea; [reflexivity|].
  destruct (includes s b) eqn:Eb; [|reflexivity].
  rewrite (includes_trans s b a Eb Hab) in Ea. discriminate Ea.
Qed.

(** X4.  Five conditions of the chain test an alternative that another
    alternative of the same condition already covers: "what time", "what
    date", "open whatsapp", "calculator" and "system information" never
    decide, because "time", "date", "whatsapp", "calc" and "system info"
    are found in them. *)
Theorem covered_alternatives :
  forall cmd : string,
    is_time cmd = includes cmd "time" /\
    is_date cmd = includes cmd "date" /\
    is_whatsapp cmd = includes cmd "whatsapp" /\
    is_calculator cmd = includes cmd "calc" /\
    is_system_info cmd = includes cmd "system info" || includes cmd "computer specs".
Proof.
  intros cmd. unfold is_time, is_date, is_whatsapp, is_calculator, is_system_info.
  repeat split.
  - apply includes_absorb. reflexivity.
  - apply includes_absorb. reflexivity.
  - apply includes_absorb. reflexivity.
  - rewrite orb_comm. apply includes_absorb. reflexivity.
  - rewrite (includes_absorb cmd "system info" "system information"); reflexivity.
Qed.

(* ================================================================== *)
(** ** Further properties: errors and the informational queries *)
(* ================================================================== *)

Section Computations.
Context {H : Host}.









Lemma returns_with_ret (A : Type) (Q : A -> Prop) (a : A) :
  Q a -> returns_with Q (ret a).
Proof. intros q w. exists a, w. split; [reflexivity | exact q]. Qed.

Lemma returns_with_bind (A B : Type) (Q : B -> Prop) (m : M A) (k : A -> M B) :
  returns_with (fun _ => True) m ->
  (forall a, returns_with Q (k a)) ->
  returns_with Q (bind m k).
Proof.
  intros Hm Hk w. destruct (Hm w) as (a & w1 & Em & _).
  destruct (Hk a w1) as (b & w2 & Ek & q).
  exists b, w2. unfold bind. rewrite Em. split; [exact Ek | exact q].
Qed.

Lemma returns_with_ask (A : Type) (f : World -> A) :
  returns_with (fun _ => True) (ask f).
Proof. intros w. exists (f w), w. split; [reflexivity | exact I]. Qed.

Lemma returns_with_try_catch (A : Type) (Q : A -> Prop) (m : M A) (h : JsError -> M A) :
  yields Q m ->
  (forall e, returns_with Q (h e)) ->
  returns_with Q (try_catch m h).
Proof.
  intros Hm Hh w. unfold try_catch.
  destruct (m w) as [[a|e] w1] eqn:Em.
  - exists a, w1. split; [reflexivity | exact (Hm w a w1 Em)].
  - exact (Hh e w1).
Qed.

Lemma attempt_returns (m : M string) (fallback : string) :
  returns_with (fun _ => True) (attempt m fallback).
Proof.
  apply returns_with_try_catch.
  - intros w a w' _. exact I.
  - intros e. apply returns_with_ret. exact I.
Qed.

Lemma yields_ret (A : Type) (Q : A -> Prop) (a : A) : Q a -> yields Q (ret a).
Proof. intros q w a' w' E. inversion E. subst. exact q. Qed.

Lemma yields_bind (A B : Type) (Q : B -> Prop) (m : M A) (k : A -> M B) :
  (forall a, yields Q (k a)) -> yields Q (bind m k).
Proof.
  intros Hk w b w' E. apply bind_Ok in E. destruct E as (a & w1 & _ & E).
  exact (Hk a w1 b w' E).
Qed.

Lemma startsWith_app (s h x : string) :
  startsWith s h = true -> startsWith (s ++ x) h = true.
Proof.
  unfold startsWith. intros E. apply prefix_split in E. destruct E as (t & ->).
  rewrite append_assoc. apply prefix_app.
Qed.

Lemma startsWith_fold (A : Type) (g : string -> A -> string) (h : string) :
  (forall acc a, startsWith acc h = true -> startsWith (g acc a) h = true) ->
  forall (l : list A) (acc : string),
    startsWith acc h = true -> startsWith (fold_left g l acc) h = true.
Proof.
  intros Hg l. induction l as [|a l IH]; intros acc E; [exact E|].
  cbn [fold_left]. apply IH, Hg, E.
Qed.

End Computations.





(** Each of these queries returns, under its heading. *)
Lemma info_queries_return :
  forall H : Host,
    returns_with (fun info => startsWith info "💻 System Information:" = true) getSystemInfo /\
    returns_with (fun info => startsWith info "🧠 Memory Information:" = true) getMemoryInfo /\
    returns_with (fun info => startsWith info "💾 Storage Information:" = true) getStorageInfo /\
    returns_with (fun info => startsWith info "🌐 Network Information:" = true) getNetworkInfo /\
    returns_with (fun info => startsWith info "🔋 Battery" = true) getBatteryInfo /\
    returns_with (fun info => startsWith info "🌡️ Temperature" = true) getTemperatureInfo.
Proof.
  intros H. repeat split.
  - unfold getSystemInfo.
    repeat (apply returns_with_bind; [first [apply returns_with_ask | apply attempt_returns] | intros]).
    apply returns_with_ret. apply prefix_app.
  - unfold getMemoryInfo.
    repeat (apply returns_with_bind; [first [apply returns_with_ask | apply attempt_returns] | intros]).
    apply returns_with_ret. apply prefix_app.
  - unfold getStorageInfo.
    apply returns_with_bind; [apply attempt_returns | intros].
    apply returns_with_ret. apply prefix_app.
  - unfold getNetworkInfo.
    apply returns_with_bind; [apply returns_with_ask | intros ifs].
    assert (N : startsWith
                  (fold_left (fun acc entry => acc ++ iface_lines (fst entry) (snd entry))
                     ifs ("🌐 Network Information:" ++ nl))
                  "🌐 Network Information:" = true).
    { apply startsWith_fold.
      - intros acc a E. apply startsWith_app, E.
      - apply prefix_app. }
    apply returns_with_try_catch.
    + apply yields_bind. intros a. apply yields_ret. apply startsWith_app, N.
    + intros e. apply returns_with_ret. apply startsWith_app, N.
  - unfold getBatteryInfo. apply returns_with_try_catch.
    + apply yields_bind. intros a.
      destruct (truthy (trim a)); apply yields_ret; reflexivity.
    + intros e. apply returns_with_ret. reflexivity.
  - unfold getTemperatureInfo. apply returns_with_try_catch.
    + apply yields_bind. intros a.
      destruct (truthy (trim a)); apply yields_ret; reflexivity.
    + intros e. apply returns_with_ret. reflexivity.
Qed.

(** X6.  Six of the informational queries never throw, whatever their
    commands do on the host: the answer always begins with the heading of
    the query, and when the command fails its output is replaced by a
    fixed text. *)
Theorem info_queries_always_answer :
  forall H : Host,
    (returns_with (fun info => startsWith info "💻 System Information:" = true) getSystemInfo /\
     returns_with (fun info => startsWith info "🧠 Memory Information:" = true) getMemoryInfo /\
     returns_with (fun info => startsWith info "💾 Storage Information:" = true) getStorageInfo /\
     returns_with (fun info => startsWith info "🌐 Network Information:" = true) getNetworkInfo /\
     returns_with (fun info => startsWith info "🔋 Battery" = true) getBatteryInfo /\
     returns_with (fun info => startsWith info "🌡️ Temperature" = true) getTemperatureInfo) /\
    (forall (w w' : World) (r : ExecResult) (e : JsError),
        exec (Some 10000%N)
          (by_platform "wmic os get Caption,Version /format:list" "sw_vers"
             "lsb_release -a 2>/dev/null || cat /etc/os-release") w = (r, w') ->
        exec_error r = Some e ->
        getSystemInfo w =
        (Ok ("💻 System Information:" ++ nl ++
             "🖥️ Hostname: " ++ hostname w ++ nl ++
             "⚙️ Platform: " ++ platform ++ " (" ++ arch ++ ")" ++ nl ++
             "🕐 Uptime: " ++ uptimeHours w ++ " hours" ++ nl ++
             "🧠 Memory: " ++ usedOfRoundedGB w ++ "GB used / " ++ totalMemGB w ++
               "GB total (" ++ freeMemGB w ++ "GB free)" ++ nl ++
             "📋 OS Details: " ++ substring 0 200 (platform ++ " " ++ arch)), w')) /\
    (forall (w w' : World) (r : ExecResult) (e : JsError),
        exec (Some 10000%N)
          (by_platform "wmic memorychip get Capacity,Speed,Manufacturer /format:list"
             "system_profiler SPMemoryDataType"
             ("sudo dmidecode --type memory 2>/dev/null | grep -E " ++
                quoted "Size|Speed|Type:" ++ " || free -h")) w = (r, w') ->
        exec_error r = Some e ->
        getMemoryInfo w =
        (Ok ("🧠 Memory Information:" ++ nl ++
             "📊 Total RAM: " ++ totalMemGB w ++ " GB" ++ nl ++
             "✅ Used: " ++ usedMemGB w ++ " GB (" ++ memUsagePercent w ++ "%)" ++ nl ++
             "🆓 Free: " ++ freeMemGB w ++ " GB" ++ nl ++
             "📋 Details: " ++ "Detailed memory info not available"), w')) /\
    (forall (w w' : World) (r : ExecResult) (e : JsError),
        exec (Some 10000%N)
          (by_platform "wmic logicaldisk get Size,FreeSpace,Caption /format:list"
             "df -h / && diskutil list" "df -h --total && lsblk") w = (r, w') ->
        exec_error r = Some e ->
        getStorageInfo w =
        (Ok ("💾 Storage Information:" ++ nl ++ "Storage information not available"), w')) /\
    (forall (w w' : World) (r : ExecResult) (e : JsError),
        exec (Some 10000%N)
          (if platform =? "win32" then "ipconfig /all" else "ifconfig || ip addr show") w =
          (r, w') ->
        exec_error r = Some e ->
        getNetworkInfo w =
        (Ok (fold_left (fun acc entry => acc ++ iface_lines (fst entry) (snd entry))
               (networkInterfaces w) ("🌐 Network Information:" ++ nl) ++
             nl ++ "📋 Additional network details not available"), w')) /\
    (forall (w w' : World) (r : ExecResult) (e : JsError),
        exec (Some 10000%N)
          (by_platform
             "wmic path Win32_Battery get EstimatedChargeRemaining,BatteryStatus /format:list"
             "pmset -g batt"
             "upower -i /org/freedesktop/UPower/devices/battery_BAT0 2>/dev/null || cat /sys/class/power_supply/BAT*/capacity 2>/dev/null")
          w = (r, w') ->
        exec_error r = Some e ->
        getBatteryInfo w = (Ok "🔋 Battery: Information not available", w')) /\
    (forall (w w' : World) (r : ExecResult) (e : JsError),
        exec (Some 10000%N)
          (by_platform
             "wmic /namespace:\\root\wmi PATH MSAcpi_ThermalZoneTemperature get CurrentTemperature /format:list"
             ("sudo powermetrics --samplers smc -n 1 2>/dev/null | grep -i temp || echo " ++
                quoted "Temperature monitoring requires admin privileges")
             "sensors 2>/dev/null || cat /sys/class/thermal/thermal_zone*/temp 2>/dev/null")
          w = (r, w') ->
        exec_error r = Some e ->
        getTemperatureInfo w = (Ok "🌡️ Temperature: Information not available", w')).
Proof.
  intros H. split; [exact (info_queries_return H)|].
  repeat split; intros w w' r e X F.
  - unfold getSystemInfo, bind, ask, attempt, try_catch, executeCommand, ret.
    rewrite X, F. reflexivity.
  - unfold getMemoryInfo, bind, ask, attempt, try_catch, executeCommand, ret.
    rewrite X, F. reflexivity.
  - unfold getStorageInfo, bind, attempt, try_catch, executeCommand, ret.
    rewrite X, F. reflexivity.
  - unfold getNetworkInfo, bind, ask, try_catch, executeCommand, ret.
    rewrite X, F. reflexivity.
  - unfold getBatteryInfo, bind, try_catch, executeCommand, ret.
    rewrite X, F. reflexivity.
  - unfold getTemperatureInfo, bind, try_catch, executeCommand, ret.
    rewrite X, F. reflexivity.
Qed.

(** On a host where no command is found the storage query gives its fixed
    text. *)
Lemma info_queries_always_answer_witness :
  @getStorageInfo bareHost [] =
  (Ok ("💾 Storage Information:" ++ nl ++ "Storage information not available"),
   ["df -h --total && lsblk"]).
Proof.
  destruct (@info_queries_always_answer bareHost) as (_ & _ & _ & S & _).
  exact (S [] ["df -h --total && lsblk"]
           (mkExec (Some (mkError (ExitCode 127) "Command failed: df -h --total && lsblk")) "" "")
           (mkError (ExitCode 127) "Command failed: df -h --total && lsblk")
           eq_refl eq_refl).
Defined.

(** [getCPUInfo] by whether [os.cpus()] lists a CPU. *)
Lemma getCPUInfo_cases (H : Host) (w : World) :
  match cpus w with
  | [] => getCPUInfo w = (Throw undefinedReadError, w)
  | _ :: _ =>
      exists (info : string) (w' : World),
        getCPUInfo w = (Ok info, w') /\
        startsWith info "⚡ CPU Information:" = true
  end.
Proof.
  destruct (cpus w) as [|[cpuModel cpuSpeed] rest] eqn:E.
  - unfold getCPUInfo, bind, ask. rewrite E. reflexivity.
  - unfold getCPUInfo, bind at 1, ask. rewrite E.
    assert (R : returns_with (fun info => startsWith info "⚡ CPU Information:" = true)
                  (detailedInfo <- attempt
                     (executeCommand (by_platform
                        "wmic cpu get Name,NumberOfCores,NumberOfLogicalProcessors,MaxClockSpeed /format:list"
                        "sysctl -n machdep.cpu.brand_string && sysctl -n hw.ncpu"
                        "lscpu"))
                     "Detailed CPU info not available" ;;
                   ret ("⚡ CPU Information:" ++ nl ++
                        "🔧 Model: " ++ cpuModel ++ nl ++
                        "🔢 Cores: " ++
                        toString (N.of_nat (List.length ((cpuModel, cpuSpeed) :: rest))) ++ nl ++
                        "⚡ Speed: " ++ cpuSpeed ++ " MHz" ++ nl ++
                        "📋 Details: " ++ substring 0 400 detailedInfo))).
    { apply returns_with_bind; [apply attempt_returns | intros].
      apply returns_with_ret. apply prefix_app. }
    exact (R w).
Qed.



(** X8.  A WhatsApp call or message command, on an ASCII text, always
    returns status 'success': the helper resolves whatever [exec] reports
    for the WhatsApp link.  When the link fails, the web page is tried in
    its place without being awaited; when that fails too, its error is not
    reported in the outcome but left to the runtime as an unhandled
    rejection. *)
Theorem whatsapp_contact_never_fails :
  forall (H : Host) (commandText userAgent : string) (w : World),
    ascii_text commandText = true ->
    classify (trim (toLowerCase commandText)) = Some WhatsApp ->
    includes (trim (toLowerCase commandText)) "call" &&
      (includes (trim (toLowerCase commandText)) "mom" ||
       includes (trim (toLowerCase commandText)) "dad" ||
       includes (trim (toLowerCase commandText)) "friend") ||
    (includes (trim (toLowerCase commandText)) "message" ||
     includes (trim (toLowerCase commandText)) "text") = true ->
    exists response command : string,
      startsWith command (opener ++ " whatsapp://") = true /\
      processCommand commandText userAgent w =
      (Ok (mkOutcome "success" response),
       match exec None command w with
       | (r, w1) =>
           match exec_error r with
           | None => w1
           | Some _ =>
               match openWebsite "web.whatsapp.com" w1 with
               | (Ok _, w2) => w2
               | (Throw e, w2) => unhandledRejection e w2
               end
           end
       end).
Proof.
  intros H commandText userAgent w _.
  set (cmd := trim (toLowerCase commandText)). intros C K.
  assert (P1 : forall x, startsWith (opener ++ " whatsapp://call?phone=" ++ x)
                           (opener ++ " whatsapp://") = true).
  { intros x. unfold startsWith.
    change (" whatsapp://call?phone=" ++ x) with (" whatsapp://" ++ "call?phone=" ++ x).
    rewrite <- append_assoc. apply prefix_app. }
  assert (P2 : forall x, startsWith (opener ++ " whatsapp://send?phone=" ++ x)
                           (opener ++ " whatsapp://") = true).
  { intros x. unfold startsWith.
    change (" whatsapp://send?phone=" ++ x) with (" whatsapp://" ++ "send?phone=" ++ x).
    rewrite <- append_assoc. apply prefix_app. }
  rewrite processCommand_unfold. fold cmd.
  rewrite processCommand_try_dispatch, C. cbn [dispatch block].
  unfold do_whatsapp, openWhatsAppCall, openWhatsAppMessage.
  destruct (includes cmd "call" &&
            (includes cmd "mom" || includes cmd "dad" || includes cmd "friend")).
  - set (contact := if includes cmd "mom" then "Mom"
                    else if includes cmd "dad" then "Dad" else "Friend").
    exists ("📞 Calling " ++ contact ++ " on WhatsApp"),
           (opener ++ " whatsapp://call?phone=" ++ encodeURIComponent contact).
    split; [apply P1|].
    unfold bind, whatsapp_exec, success, ret.
    destruct (exec None (opener ++ " whatsapp://call?phone=" ++ encodeURIComponent contact) w)
      as [r w1].
    destruct (exec_error r); [|reflexivity].
    destruct (openWebsite "web.whatsapp.com" w1) as [[u|e] w2]; reflexivity.
  - cbn [orb] in K. rewrite K.
    set (contact := match contactMatch cmd with Some c => c | None => "contact" end).
    exists ("💬 Opening WhatsApp chat with " ++ contact),
           (opener ++ " whatsapp://send?phone=" ++ encodeURIComponent contact).
    split; [apply P2|].
    unfold bind, whatsapp_exec, success, ret.
    destruct (exec None (opener ++ " whatsapp://send?phone=" ++ encodeURIComponent contact) w)
      as [r w1].
    destruct (exec_error r); [|reflexivity].
    destruct (openWebsite "web.whatsapp.com" w1) as [[u|e] w2]; reflexivity.
Qed.

(** Nothing can be run on [bareHost]: the message is reported as opened and
    the failure of the web page is left unhandled. *)
Lemma whatsapp_contact_never_fails_witness :
  exists response command : string,
    startsWith command (@opener bareHost ++ " whatsapp://") = true /\
    @processCommand bareHost "WhatsApp message john" "" [] =
    (Ok (mkOutcome "success" response),
     match @exec bareHost None command [] with
     | (r, w1) =>
         match exec_error r with
         | None => w1
         | Some _ =>
             match @openWebsite bareHost "web.whatsapp.com" w1 with
             | (Ok _, w2) => w2
             | (Throw e, w2) => @unhandledRejection bareHost e w2
             end
         end
     end).
Proof.
  apply (@whatsapp_contact_never_fails bareHost "WhatsApp message john" "" []);
    reflexivity.
Defined.

(* ================================================================== *)
(** ** Further properties: what the patterns capture *)
(* ================================================================== *)




Lemma strip_prefix_Some (p s r : string) :
  strip_prefix p s = Some r -> s = p ++ r.
Proof.
  revert s. induction p as [|a p IH]; intros s E.
  - cbn in E. inversion E. reflexivity.
  - destruct s as [|b s]; [discriminate E|].
    cbn [strip_prefix] in E. destruct (Ascii.eqb a b) eqn:Eab; [|discriminate E].
    apply Ascii.eqb_eq in Eab. subst b. cbn [append]. rewrite (IH s E). reflexivity.
Qed.

Lemma leftmost_Some (A : Type) (m : string -> option A) (s : string) (a : A) :
  leftmost m s = Some a -> exists before t, s = before ++ t /\ m t = Some a.
Proof.
  induction s as [|c s IH]; cbn [leftmost]; intros E.
  - destruct (m "") eqn:Em; [|discriminate E].
    exists "", "". split; [reflexivity|]. rewrite Em. exact E.
  - destruct (m (String c s)) eqn:Em.
    + exists "", (String c s). split; [reflexivity|]. rewrite Em. exact E.
    + destruct (IH E) as (before & t & -> & Et).
      exists (String c before), t. split; [reflexivity | exact Et].
Qed.


Lemma spaces1_then_Some (A : Type) (rest : string -> option A) (s : string) (a : A) :
  spaces1_then rest s = Some a ->
  exists ws t, s = ws ++ t /\ ws <> "" /\ every is_space ws = true /\ rest t = Some a.
Proof.
  induction s as [|c s IH]; cbn [spaces1_then]; intros E; [discriminate E|].
  destruct (is_space c) eqn:Ec; [|discriminate E].
  destruct (spaces1_then rest s) as [a'|] eqn:Es.
  - destruct (IH E) as (ws & t & -> & _ & Hws & Ht).
    exists (String c ws), t. cbn [every append]. rewrite Ec, Hws.
    repeat split; [discriminate | exact Ht].
  - exists (String c ""), s. cbn [every append]. rewrite Ec.
    repeat split; [discriminate | exact E].
Qed.

Lemma spaces0_then_Some (A : Type) (rest : string -> option A) (s : string) (a : A) :
  spaces0_then rest s = Some a ->
  exists ws t, s = ws ++ t /\ every is_space ws = true /\ rest t = Some a.
Proof.
  unfold spaces0_then. intros E.
  destruct (spaces1_then rest s) as [a'|] eqn:Es.
  - destruct (spaces1_then_Some rest s Es) as (ws & t & Hs & _ & Hws & Ht).
    exists ws, t. repeat split; [exact Hs | exact Hws | congruence].
  - exists "", s. repeat split. exact E.
Qed.

Lemma plus_then_Some (A : Type) (p : ascii -> bool) (rest : string -> option A)
    (s run : string) (a : A) :
  plus_then p rest s = Some (run, a) ->
  run <> "" /\ every p run = true /\ exists t, s = run ++ t /\ rest t = Some a.
Proof.
  revert run. induction s as [|c s IH]; cbn [plus_then]; intros run E; [discriminate E|].
  destruct (p c) eqn:Ec; [|discriminate E].
  destruct (plus_then p rest s) as [[run' a']|] eqn:Es.
  - inversion E. subst. destruct (IH run' eq_refl) as (_ & Hr & t & -> & Ht).
    cbn [every]. rewrite Ec, Hr. repeat split; [discriminate|].
    exists t. split; [reflexivity | exact Ht].
  - destruct (rest s) as [a'|] eqn:Er; [|discriminate E].
    inversion E. subst. cbn [every]. rewrite Ec. repeat split; [discriminate|].
    exists s. split; [reflexivity | exact Er].
Qed.






Lemma time_unit_Some (s u : string) :
  time_unit s = Some u ->
  (exists after, s = u ++ after) /\
  (u = "second" \/ u = "seconds" \/ u = "minute" \/ u = "minutes").
Proof.
  unfold time_unit, startsWith. intros E.
  destruct (strip_prefix "second" s) as [r|] eqn:E1.
  - apply strip_prefix_Some in E1. subst s.
    destruct (String.prefix "s" r) eqn:Ep; inversion E; subst u.
    + apply prefix_split in Ep. destruct Ep as (t & ->). split; [exists t; reflexivity | tauto].
    + split; [exists r; reflexivity | tauto].
  - destruct (strip_prefix "minute" s) as [r|] eqn:E2; [|discriminate E].
    apply strip_prefix_Some in E2. subst s.
    destruct (String.prefix "s" r) eqn:Ep; inversion E; subst u.
    + apply prefix_split in Ep. destruct Ep as (t & ->). split; [exists t; reflexivity | tauto].
    + split; [exists r; reflexivity | tauto].
Qed.

(** X10.  Whenever the duration pattern matches on an ASCII command, the
    magnitude it captures is a non-empty string of decimal digits taken
    from the command, followed there by optional white space and the unit,
    which is one of "second", "seconds", "minute", "minutes": [parseInt] is
    only ever given digits, and, for a magnitude whose product with 60
    stays below 2^53, the duration is the magnitude, times 60 for the two
    minute units. *)
Theorem timeMatch_captures_digits_and_unit :
  forall cmd ds unit : string,
    ascii_text cmd = true ->
    (parseInt ds * 60 < 2 ^ 53)%N ->
    timeMatch cmd = Some (ds, unit) ->
    (exists before ws after : string,
        cmd = before ++ ds ++ ws ++ unit ++ after /\ every is_space ws = true) /\
    ds <> "" /\
    every is_digit ds = true /\
    (unit = "second" \/ unit = "seconds" \/ unit = "minute" \/ unit = "minutes") /\
    shutdown_seconds cmd =
      (if (unit =? "minute") || (unit =? "minutes")
       then (parseInt ds * 60)%N else parseInt ds).
Proof.
  intros cmd ds unit _ _ E.
  assert (S : shutdown_seconds cmd =
              if startsWith unit "minute" then (parseInt ds * 60)%N else parseInt ds).
  { unfold shutdown_seconds. rewrite E. reflexivity. }
  unfold timeMatch in E.
  apply leftmost_Some in E. destruct E as (before & t & -> & E).
  apply plus_then_Some in E. destruct E as (Hne & Hds & t' & -> & E).
  apply spaces0_then_Some in E. destruct E as (ws & t'' & -> & Hws & E).
  apply time_unit_Some in E. destruct E as ((after & ->) & Hu).
  split; [exists before, ws, after; split; [reflexivity | exact Hws]|].
  split; [exact Hne|]. split; [exact Hds|]. split; [exact Hu|].
  rewrite S. destruct Hu as [->|[->|[->| ->]]]; reflexivity.
Qed.

Lemma timeMatch_captures_digits_and_unit_witness :
  shutdown_seconds "shutdown the pc in 90 seconds" =
  (if ("seconds" =? "minute") || ("seconds" =? "minutes")
   then (parseInt "90" * 60)%N else parseInt "90").
Proof.
  exact (proj2 (proj2 (proj2 (proj2
    (@timeMatch_captures_digits_and_unit "shutdown the pc in 90 seconds" "90" "seconds"
       eq_refl eq_refl eq_refl))))).
Defined.

(* ------------------------------------------------------------------ *)
(** *** The duration pattern finds the first phrase *)

Lemma time_unit_spec (s u : string) :
  time_unit s = Some u <->
  exists word rest : string,
    s = word ++ rest /\ (word = "second" \/ word = "minute") /\
    u = (if startsWith rest "s" then word ++ "s" else word).
Proof.
  split.
  - unfold time_unit. intros E.
    destruct (strip_prefix "second" s) as [r|] eqn:E1.
    + apply strip_prefix_Some in E1. exists "second", r.
      split; [exact E1|]. split; [tauto|].
      destruct (startsWith r "s"); inversion E; reflexivity.
    + destruct (strip_prefix "minute" s) as [r|] eqn:E2; [|discriminate E].
      apply strip_prefix_Some in E2. exists "minute", r.
      split; [exact E2|]. split; [tauto|].
      destruct (startsWith r "s"); inversion E; reflexivity.
  - intros (word & rest & -> & Hw & ->). unfold startsWith.
    destruct Hw as [-> | ->]; cbn; destruct (String.prefix "s" rest); reflexivity.
Qed.

(** The pattern, tried at the head of [s], captures exactly the phrase
    that begins there. *)
Lemma phrase_at_spec (s ds unit : string) :
  plus_then is_digit (spaces0_then time_unit) s = Some (ds, unit) <->
  phrase_at s ds unit.
Proof.
  split.
  - intros E. apply plus_then_Some in E. destruct E as (Hne & Hds & t & -> & E).
    apply spaces0_then_Some in E. destruct E as (ws & t' & -> & Hws & E).
    apply time_unit_spec in E. destruct E as (word & rest & -> & Hw & Hu).
    exists ws, word, rest. split; [reflexivity|]. repeat split; assumption.
  - intros (ws & word & rest & -> & Hne & Hds & Hws & Hw & Hu).
    assert (Tu : time_unit (word ++ rest) = Some unit)
      by (apply time_unit_spec; exists word, rest; repeat split; assumption).
    assert (Hs1 : spaces1_then time_unit (word ++ rest) = None)
      by (destruct Hw as [-> | ->]; reflexivity).
    assert (Hstop : plus_then is_digit (spaces0_then time_unit) (ws ++ word ++ rest) = None).
    { destruct ws as [|c ws].
      - destruct Hw as [-> | ->]; reflexivity.
      - cbn in Hws. apply andb_true_iff in Hws. destruct Hws as (Hc & _).
        cbn [append plus_then]. rewrite (space_not_digit c Hc). reflexivity. }
    pose proof (@spaces0_then_run _ time_unit ws (word ++ rest) _ Hws Hs1 Tu) as Hrest.
    exact (@plus_then_run _ is_digit (spaces0_then time_unit) ds (ws ++ word ++ rest) _
             Hne Hds Hstop Hrest).
Qed.

Lemma no_phrase_at_spec (s : string) :
  plus_then is_digit (spaces0_then time_unit) s = None <->
  forall ds unit : string, ~ phrase_at s ds unit.
Proof.
  split.
  - intros N ds unit Hp. apply phrase_at_spec in Hp. congruence.
  - intros Hn.
    destruct (plus_then is_digit (spaces0_then time_unit) s) as [[ds unit]|] eqn:E;
      [|reflexivity].
    exfalso. apply (Hn ds unit). apply phrase_at_spec. exact E.
Qed.

Lemma leftmost_head (A : Type) (m : string -> option A) (s : string) (a : A) :
  m s = Some a -> leftmost m s = Some a.
Proof. intros E. destruct s; cbn [leftmost]; rewrite E; reflexivity. Qed.

Lemma leftmost_first (A : Type) (m : string -> option A) (s : string) (a : A) :
  leftmost m s = Some a ->
  exists before t : string,
    s = before ++ t /\ m t = Some a /\
    forall b1 b2 : string, before = b1 ++ b2 -> b2 <> "" -> m (b2 ++ t) = None.
Proof.
  induction s as [|c s IH]; cbn [leftmost]; intros E.
  - destruct (m "") eqn:Em; [|discriminate E].
    exists "", "". split; [reflexivity|]. split; [congruence|].
    intros b1 b2 Hb Hne. destruct b1; destruct b2; try discriminate Hb. congruence.
  - destruct (m (String c s)) eqn:Em.
    + exists "", (String c s). split; [reflexivity|]. split; [congruence|].
      intros b1 b2 Hb Hne. destruct b1; destruct b2; try discriminate Hb. congruence.
    + destruct (IH E) as (before & t & -> & Et & Hfirst).
      exists (String c before), t. split; [reflexivity|]. split; [exact Et|].
      intros b1 b2 Hb Hne. destruct b1 as [|x b1].
      * cbn [append] in Hb. subst b2. exact Em.
      * cbn [append] in Hb. inversion Hb. subst. exact (Hfirst b1 b2 eq_refl Hne).
Qed.

Lemma leftmost_intro (A : Type) (m : string -> option A) (before t : string) (a : A) :
  m t = Some a ->
  (forall b1 b2 : string, before = b1 ++ b2 -> b2 <> "" -> m (b2 ++ t) = None) ->
  leftmost m (before ++ t) = Some a.
Proof.
  induction before as [|c before IH]; intros Et Hfirst.
  - apply leftmost_head, Et.
  - cbn [append leftmost].
    assert (N : m (String c before ++ t) = None)
      by (apply (Hfirst "" (String c before)); [reflexivity | discriminate]).
    cbn [append] in N. rewrite N.
    apply IH; [exact Et|].
    intros b1 b2 Hb Hne. apply (Hfirst (String c b1) b2); [|exact Hne].
    cbn [append]. rewrite Hb. reflexivity.
Qed.

Lemma leftmost_None (A : Type) (m : string -> option A) (s : string) :
  leftmost m s = None <-> forall before t : string, s = before ++ t -> m t = None.
Proof.
  split.
  - induction s as [|c s IH]; cbn [leftmost]; intros E before t Hs.
    + destruct before; destruct t; try discriminate Hs.
      destruct (m ""); [discriminate E | reflexivity].
    + destruct (m (String c s)) eqn:Em; [discriminate E|].
      destruct before as [|x before].
      * cbn [append] in Hs. subst t. exact Em.
      * cbn [append] in Hs. inversion Hs. subst. exact (IH E before t eq_refl).
  - intros Hn. induction s as [|c s IH]; cbn [leftmost].
    + rewrite (Hn "" "" eq_refl). reflexivity.
    + rewrite (Hn "" (String c s) eq_refl). apply IH.
      intros before t Hs. apply (Hn (String c before) t). cbn [append]. rewrite Hs.
      reflexivity.
Qed.

(** [timeMatch] captures the first phrase of the command, and none when the
    command holds no phrase. *)
Lemma timeMatch_first_phrase (cmd ds unit : string) :
  timeMatch cmd = Some (ds, unit) <-> first_phrase cmd ds unit.
Proof.
  unfold timeMatch, first_phrase. split.
  - intros E. apply leftmost_first in E. destruct E as (before & t & -> & Et & Hfirst).
    exists before, t. split; [reflexivity|]. split; [apply phrase_at_spec, Et|].
    intros b1 b2 Hb Hne. apply no_phrase_at_spec. exact (Hfirst b1 b2 Hb Hne).
  - intros (before & t & -> & Hp & Hfirst).
    apply leftmost_intro; [apply phrase_at_spec, Hp|].
    intros b1 b2 Hb Hne. apply no_phrase_at_spec. exact (Hfirst b1 b2 Hb Hne).
Qed.

Lemma timeMatch_no_phrase (cmd : string) :
  timeMatch cmd = None <-> no_phrase cmd.
Proof.
  unfold timeMatch, no_phrase. rewrite leftmost_None. split.
  - intros Hn before t ds unit Hs. apply no_phrase_at_spec. exact (Hn before t Hs).
  - intros Hn before t Hs. apply no_phrase_at_spec. intros ds unit.
    exact (Hn before t ds unit Hs).
Qed.

(** C6, amended.  When the shutdown rule fires on an ASCII command,
    [systemShutdown] is called with a duration read from the first
    magnitude-and-unit phrase found anywhere in the lower-cased text,
    before or after "shutdown": a minutes unit multiplies the magnitude by
    60, a seconds unit leaves it as it is, and a command that holds no such
    phrase gets 60 seconds; "shutdown in 5 minutes" resolves to 300
    seconds.  The duration is taken below 2^53, where the arithmetic of the
    code is exact. *)
Theorem shutdown_duration :
  forall (H : Host) (cmd : string),
    ascii_text cmd = true ->
    classify cmd = Some Shutdown ->
    (shutdown_seconds cmd < 2 ^ 53)%N ->
    processCommand_try cmd =
      (systemShutdown (shutdown_seconds cmd) ;;
       success ("⚠️ System will shutdown in " ++ toString (shutdown_seconds cmd) ++ " seconds")) /\
    (forall ds unit : string,
        first_phrase cmd ds unit ->
        shutdown_seconds cmd =
          (if (unit =? "minute") || (unit =? "minutes")
           then (parseInt ds * 60)%N else parseInt ds)) /\
    (no_phrase cmd -> shutdown_seconds cmd = 60%N) /\
    (no_phrase cmd \/ exists ds unit : string, first_phrase cmd ds unit) /\
    (forall ds unit : string, first_phrase cmd ds unit <-> timeMatch cmd = Some (ds, unit)) /\
    shutdown_seconds (trim (toLowerCase "shutdown in 5 minutes")) = 300%N.
Proof.
  intros H cmd _ E _. split; [|split; [|split; [|split; [|split]]]].
  - rewrite processCommand_try_dispatch, E. reflexivity.
  - intros ds unit F. apply timeMatch_first_phrase in F.
    unfold shutdown_seconds. rewrite F.
    apply timeMatch_first_phrase in F. destruct F as (before & t & _ & Hp & _).
    destruct Hp as (ws & word & rest & _ & _ & _ & _ & Hw & ->).
    destruct Hw as [-> | ->]; destruct (startsWith rest "s"); reflexivity.
  - intros N. apply timeMatch_no_phrase in N. unfold shutdown_seconds. rewrite N.
    reflexivity.
  - destruct (timeMatch cmd) as [[ds unit]|] eqn:T.
    + right. exists ds, unit. apply timeMatch_first_phrase, T.
    + left. apply timeMatch_no_phrase, T.
  - intros ds unit. symmetry. apply timeMatch_first_phrase.
  - vm_compute. reflexivity.
Qed.

(** Scenario B: "shutdown in 5 minutes". *)
Lemma shutdown_duration_witness :
  @processCommand_try quietHost "shutdown in 5 minutes" =
    (systemShutdown 300 ;; success ("⚠️ System will shutdown in " ++ toString 300 ++ " seconds")) /\
  shutdown_seconds "shutdown in 5 minutes" = (parseInt "5" * 60)%N.
Proof.
  pose proof (@shutdown_duration quietHost "shutdown in 5 minutes" eq_refl eq_refl eq_refl)
    as (A & B & _).
  split.
  - exact A.
  - apply (B "5" "minutes"). apply timeMatch_first_phrase. reflexivity.
Defined.






Lemma ceil_minutes_bounds (seconds : N) :
  (seconds <= 60 * ceil_minutes seconds < seconds + 60)%N.
Proof.
  unfold ceil_minutes.
  assert (Z60 : 60%N <> 0%N) by discriminate.
  pose proof (N.div_mod (seconds + 59) 60 Z60) as D.
  pose proof (N.mod_lt (seconds + 59) 60 Z60) as L.
  set (q := ((seconds + 59) / 60)%N) in *.
  set (r := ((seconds + 59) mod 60)%N) in *.
  clearbody q r. lia.
Qed.

(** X12.  For a delay below 2^53 seconds, outside Windows the delay of a
    shutdown is handed to the system in whole minutes, rounded up: the
    machine goes down between [seconds] and [seconds + 59] seconds from
    now, and a request for no delay stays at no delay.  On Windows the
    seconds are passed on as they are. *)
Theorem systemShutdown_rounds_up_to_minutes :
  forall (H : Host) (seconds : N),
    (seconds < 2 ^ 53)%N ->
    systemShutdown seconds =
      exec_or_reject
        (if platform =? "win32"
         then "shutdown /s /t " ++ toString seconds
         else "sudo shutdown -h +" ++ toString (ceil_minutes seconds))
        "Shutdown command not available or requires administrator privileges." /\
    (seconds <= 60 * ceil_minutes seconds < seconds + 60)%N /\
    ceil_minutes 0 = 0%N.
Proof.
  intros H seconds _. split; [|split; [apply ceil_minutes_bounds | reflexivity]].
  unfold systemShutdown.
  destruct (platform =? "win32") eqn:W.
  - apply String.eqb_eq in W. rewrite W. reflexivity.
  - destruct (platform =? "darwin"); reflexivity.
Qed.

(** "shutdown in 10 seconds" on Linux is scheduled one minute ahead. *)
Lemma systemShutdown_rounds_up_to_minutes_witness :
  @systemShutdown quietHost 10 =
  exec_or_reject "sudo shutdown -h +1"
    "Shutdown command not available or requires administrator privileges.".
Proof.
  exact (proj1 (@systemShutdown_rounds_up_to_minutes quietHost 10%N eq_refl)).
Defined.

(* ================================================================== *)
(** ** Further properties: the command history *)
(* ================================================================== *)

Module HistoryMore.
Import History.

Section Facts.
Context {P : Persistent}.

Lemma degraded_flags (st : State) :
  degraded st = true <-> dbInitialized st = true /\ mongoConnected st = false.
Proof.
  unfold degraded. rewrite andb_true_iff, negb_true_iff. reflexivity.
Qed.

Lemma getCommands_degraded (limit : Z) (st : State) :
  degraded st = true ->
  getCommands limit st = Returned (slice0 (inMemoryCommands st) limit) st.
Proof.
  intros D. apply degraded_flags in D. destruct D as (Ei & Ec).
  unfold getCommands, list_in_memory. rewrite Ei, Ec. reflexivity.
Qed.

Lemma clearCommands_degraded (st : State) :
  degraded st = true ->
  clearCommands st = Returned tt (set_inMemoryCommands st []).
Proof.
  intros D. apply degraded_flags in D. destruct D as (Ei & Ec).
  unfold clearCommands. rewrite Ei, Ec. reflexivity.
Qed.

Lemma firstn_prefix (A : Type) (n : nat) (l : list A) :
  exists rest, l = (firstn n l ++ rest)%list.
Proof. exists (skipn n l). symmetry. apply firstn_skipn. Qed.

Lemma slice0_prefix (A : Type) (l : list A) (limit : Z) :
  exists rest, l = (slice0 l limit ++ rest)%list.
Proof. unfold slice0. destruct (limit <? 0)%Z; apply firstn_prefix. Qed.

Lemma slice0_length (A : Type) (l : list A) (limit : Z) :
  List.length (slice0 l limit) =
  if (limit <? 0)%Z
  then (List.length l - Z.to_nat (- limit))%nat
  else Nat.min (Z.to_nat limit) (List.length l).
Proof.
  unfold slice0. destruct (limit <? 0)%Z eqn:E; rewrite length_firstn.
  - apply Z.ltb_lt in E. lia.
  - reflexivity.
Qed.

Lemma saveCommand_returns (commandData : CommandData) (clk : Clock) (st : State) :
  dbInitialized st = true ->
  exists command st', saveCommand commandData clk st = Returned command st'.
Proof.
  intros Ei. unfold saveCommand. rewrite Ei. cbn [negb].
  destruct (mongoConnected st).
  - destruct (save commandData (db st)) as [[command|] d].
    + eexists. eexists. reflexivity.
    + rewrite HistoryFacts.save_in_memory_eq. eexists. eexists. reflexivity.
  - rewrite HistoryFacts.save_in_memory_eq. eexists. eexists. reflexivity.
Qed.

Lemma getCommands_returns (limit : Z) (st : State) :
  dbInitialized st = true ->
  exists commands st', getCommands limit st = Returned commands st'.
Proof.
  intros Ei. unfold getCommands, list_in_memory. rewrite Ei. cbn [negb].
  destruct (mongoConnected st).
  - destruct (find_sorted limit (db st)) as [[docs|] d]; eexists; eexists; reflexivity.
  - eexists. eexists. reflexivity.
Qed.

Lemma clearCommands_returns (st : State) :
  dbInitialized st = true ->
  exists st', clearCommands st = Returned tt st'.
Proof.
  intros Ei. unfold clearCommands. rewrite Ei. cbn [negb].
  destruct (mongoConnected st).
  - destruct (deleteMany (db st)) as [[[]|] d]; eexists; reflexivity.
  - eexists. reflexivity.
Qed.

Lemma step_keeps_initialized (st : State) (e : Event) :
  dbInitialized st = true -> dbInitialized (step st e) = true.
Proof.
  intros Ei. destruct e as [ok| | |commandData clk|limit|]; cbn [step];
    try reflexivity; try exact Ei.
  - unfold saveCommand, save_in_memory. rewrite Ei. cbn [negb].
    destruct (mongoConnected st);
      [destruct (save commandData (db st)) as [[command|] d]|];
      cbn [state_after dbInitialized set_inMemoryCommands set_mongoConnected set_db];
      exact Ei.
  - unfold getCommands, list_in_memory. rewrite Ei. cbn [negb].
    destruct (mongoConnected st);
      [destruct (find_sorted limit (db st)) as [[docs|] d]|];
      cbn [state_after dbInitialized set_inMemoryCommands set_mongoConnected set_db];
      exact Ei.
  - unfold clearCommands. rewrite Ei. cbn [negb].
    destruct (mongoConnected st);
      [destruct (deleteMany (db st)) as [[u|] d]|];
      cbn [state_after dbInitialized set_inMemoryCommands set_mongoConnected set_db];
      exact Ei.
Qed.

Lemma run_keeps_initialized (es : list Event) (st : State) :
  dbInitialized st = true -> dbInitialized (run st es) = true.
Proof.
  revert st. induction es as [|e es IH]; intros st Ei; [exact Ei|].
  cbn [run fold_left]. apply IH, step_keeps_initialized, Ei.
Qed.

End Facts.

(** X13.  Round trip on the in-memory path: a command saved into a degraded
    store is the first entry of the next listing, for every limit of at
    least 1, with the text, type, status and response it was saved with. *)
Theorem saved_command_is_listed_first :
  forall (P : Persistent) (commandData : CommandData) (clk : Clock) (st : State)
         (limit : Z),
    degraded st = true ->
    (1 <= limit)%Z ->
    exists (command : Command) (st' : State) (older : list Command),
      saveCommand commandData clk st = Returned command st' /\
      getCommands limit st' = Returned (command :: older) st' /\
      text command = d_text commandData /\
      type command = d_type commandData /\
      status command = d_status commandData /\
      response command = d_response commandData /\
      timestamp command = new_date clk.
Proof.
  intros P commandData clk st limit D L.
  rewrite (HistoryFacts.saveCommand_degraded commandData clk st D),
    HistoryFacts.save_in_memory_eq.
  set (command := in_memory_command commandData clk).
  set (st' := set_inMemoryCommands st _).
  assert (D' : degraded st' = true) by exact D.
  exists command, st'.
  exists (firstn (Z.to_nat limit - 1) (firstn 99 (inMemoryCommands st))).
  split; [reflexivity|]. split; [|repeat split].
  rewrite (getCommands_degraded limit st' D'). f_equal.
  unfold slice0. replace (limit <? 0)%Z with false by (symmetry; apply Z.ltb_ge; lia).
  subst st'. cbn [inMemoryCommands set_inMemoryCommands].
  rewrite firstn_cons.
  destruct (Z.to_nat limit) as [|n] eqn:E; [lia|].
  rewrite firstn_cons. replace (S n - 1)%nat with n by lia. reflexivity.
Qed.

Lemma saved_command_is_listed_first_witness :
  exists (command : Command) (st' : State) (older : list Command),
    saveCommand firstData (mkClock 1700000000000 1700000000005) emptyDegraded =
      Returned command st' /\
    getCommands 50 st' = Returned (command :: older) st' /\
    text command = d_text firstData /\
    type command = d_type firstData /\
    status command = d_status firstData /\
    response command = d_response firstData /\
    timestamp command = 1700000000005%N.
Proof.
  apply (@saved_command_is_listed_first unreachableStore firstData
           (mkClock 1700000000000 1700000000005) emptyDegraded 50%Z);
    [reflexivity | lia].
Defined.

(** X14.  Listing from memory returns a leading piece of the buffer, newest
    first, and changes nothing: with a limit of 0 or more it holds the
    first [limit] commands (all of them when there are fewer), and with a
    negative limit it holds all but the last [-limit]. *)
Theorem in_memory_listing_is_a_slice :
  forall (P : Persistent) (st : State) (limit : Z),
    degraded st = true ->
    exists (listed rest : list Command),
      getCommands limit st = Returned listed st /\
      inMemoryCommands st = (listed ++ rest)%list /\
      List.length listed =
        (if (limit <? 0)%Z
         then (List.length (inMemoryCommands st) - Z.to_nat (- limit))%nat
         else Nat.min (Z.to_nat limit) (List.length (inMemoryCommands st))).
Proof.
  intros P st limit D.
  destruct (slice0_prefix (inMemoryCommands st) limit) as (rest & E).
  exists (slice0 (inMemoryCommands st) limit), rest.
  split; [apply getCommands_degraded, D|]. split; [exact E | apply slice0_length].
Qed.

Lemma in_memory_listing_is_a_slice_witness :
  exists (listed rest : list Command),
    getCommands 2 (save_all manyCalls emptyDegraded) =
      Returned listed (save_all manyCalls emptyDegraded) /\
    inMemoryCommands (save_all manyCalls emptyDegraded) = (listed ++ rest)%list /\
    List.length listed =
      (if (2 <? 0)%Z
       then (List.length (inMemoryCommands (save_all manyCalls emptyDegraded))
             - Z.to_nat (- 2))%nat
       else Nat.min (Z.to_nat 2)
              (List.length (inMemoryCommands (save_all manyCalls emptyDegraded)))).
Proof.
  apply (@in_memory_listing_is_a_slice unreachableStore
           (save_all manyCalls emptyDegraded) 2%Z).
  vm_compute. reflexivity.
Defined.

(** X15.  Once the barrier is passed [clearCommands] always returns: either
    the persistent store has deleted its documents, or the in-memory buffer
    is empty afterwards.  On a degraded store clearing is idempotent: a
    second call changes nothing and every listing is empty. *)
Theorem clearCommands_clears :
  forall (P : Persistent) (st : State),
    dbInitialized st = true ->
    exists st' : State,
      clearCommands st = Returned tt st' /\
      (inMemoryCommands st' = [] \/
       (mongoConnected st = true /\ fst (deleteMany (db st)) = Some tt /\
        mongoConnected st' = true)) /\
      (degraded st = true ->
       st' = set_inMemoryCommands st [] /\
       clearCommands st' = Returned tt st' /\
       forall limit : Z, getCommands limit st' = Returned [] st').
Proof.
  intros P st Ei. unfold clearCommands at 1. rewrite Ei. cbn [negb].
  destruct (mongoConnected st) eqn:Ec.
  - destruct (deleteMany (db st)) as [[[]|] d] eqn:Ed.
    + exists (set_db st d). split; [reflexivity|]. split.
      * right. cbn. auto.
      * intros D. apply degraded_flags in D. destruct D as (_ & F). congruence.
    + eexists. split; [reflexivity|]. split; [left; reflexivity|].
      intros D. apply degraded_flags in D. destruct D as (_ & F). congruence.
  - exists (set_inMemoryCommands st []). split; [reflexivity|]. split; [left; reflexivity|].
    intros _. split; [reflexivity|].
    assert (D' : degraded (set_inMemoryCommands st []) = true)
      by (apply degraded_flags; split; assumption).
    split.
    + rewrite (clearCommands_degraded _ D'). reflexivity.
    + intros limit. rewrite (getCommands_degraded limit _ D').
      unfold slice0. cbn [inMemoryCommands set_inMemoryCommands].
      destruct (limit <? 0)%Z; rewrite firstn_nil; reflexivity.
Qed.

Lemma clearCommands_clears_witness :
  exists st' : State,
    clearCommands (save_all manyCalls emptyDegraded) = Returned tt st' /\
    (inMemoryCommands st' = [] \/
     (mongoConnected (save_all manyCalls emptyDegraded) = true /\
      fst (deleteMany (db (save_all manyCalls emptyDegraded))) = Some tt /\
      mongoConnected st' = true)) /\
    (degraded (save_all manyCalls emptyDegraded) = true ->
     st' = set_inMemoryCommands (save_all manyCalls emptyDegraded) [] /\
     clearCommands st' = Returned tt st' /\
     forall limit : Z, getCommands limit st' = Returned [] st').
Proof.
  apply (@clearCommands_clears unreachableStore (save_all manyCalls emptyDegraded)).
  vm_compute. reflexivity.
Defined.

(** X16.  A clear that the persistent store carries out leaves the
    in-memory buffer as it is: commands kept there from an earlier degraded
    period are listed again as soon as the connection is lost, although the
    history was cleared in between. *)
Theorem cleared_history_can_come_back :
  forall (P : Persistent) (st : State) (d : Db) (limit : Z),
    dbInitialized st = true ->
    mongoConnected st = true ->
    deleteMany (db st) = (Some tt, d) ->
    clearCommands st = Returned tt (set_db st d) /\
    inMemoryCommands (set_db st d) = inMemoryCommands st /\
    getCommands limit (step (set_db st d) ConnectionError) =
      Returned (slice0 (inMemoryCommands st) limit) (step (set_db st d) ConnectionError).
Proof.
  intros P st d limit Ei Ec Ed. split; [|split; [reflexivity|]].
  - unfold clearCommands. rewrite Ei, Ec, Ed. reflexivity.
  - rewrite getCommands_degraded; [reflexivity|].
    apply degraded_flags. split; [exact Ei | reflexivity].
Qed.

(** One command saved while degraded, the connection comes back, the history
    is cleared, the connection drops: the command is listed again. *)
Lemma cleared_history_can_come_back_witness :
  getCommands 50
    (step (set_db (@mkState listStore [in_memory_command firstData (mkClock 5 5)]
                     true true [])
             []) ConnectionError) =
  Returned [in_memory_command firstData (mkClock 5 5)]
    (step (set_db (@mkState listStore [in_memory_command firstData (mkClock 5 5)]
                     true true [])
             []) ConnectionError).
Proof.
  refine (proj2 (proj2 (@cleared_history_can_come_back listStore
           (@mkState listStore [in_memory_command firstData (mkClock 5 5)] true true [])
           [] 50%Z eq_refl eq_refl eq_refl))).
Defined.

(** X17.  The barrier opens once and for all: after [dbInitialized] is set
    no event clears it again and no storage call waits; before that, every
    storage call waits and changes nothing. *)
Theorem barrier_opens_once :
  forall (P : Persistent) (st : State) (es : list Event),
    (dbInitialized st = true ->
     dbInitialized (run st es) = true /\
     (forall commandData clk, saveCommand commandData clk (run st es) <> Waiting) /\
     (forall limit, getCommands limit (run st es) <> Waiting) /\
     clearCommands (run st es) <> Waiting) /\
    (dbInitialized st = false ->
     (forall commandData clk, saveCommand commandData clk st = Waiting) /\
     (forall limit, getCommands limit st = Waiting) /\
     clearCommands st = Waiting).
Proof.
  intros P st es. split.
  - intros Ei. pose proof (run_keeps_initialized es st Ei) as Er.
    split; [exact Er|]. split; [|split].
    + intros commandData clk F.
      destruct (saveCommand_returns commandData clk _ Er) as (c & st' & R). congruence.
    + intros limit F.
      destruct (getCommands_returns limit _ Er) as (c & st' & R). congruence.
    + intros F. destruct (clearCommands_returns _ Er) as (st' & R). congruence.
  - intros Ei. unfold saveCommand, getCommands, clearCommands. rewrite Ei.
    repeat split.
Qed.

(** After the connection attempt has settled, a save made after a clear
    does not wait. *)
Lemma barrier_opens_once_witness :
  dbInitialized (run (initial (P := unreachableStore) tt) [ConnectSettled false; ClearCommands])
  = true /\
  forall commandData clk,
    saveCommand commandData clk
      (run (run (initial (P := unreachableStore) tt) [ConnectSettled false]) [ClearCommands])
    <> Waiting.
Proof.
  destruct (proj1 (@barrier_opens_once unreachableStore
                     (run (initial (P := unreachableStore) tt) [ConnectSettled false])
                     [ClearCommands]) eq_refl) as (A & B & _).
  split; [exact A | exact B].
Defined.

Lemma degraded_step (P : Persistent) (st : State) (e : Event) :
  degraded st = true ->
  e <> ConnectionUp ->
  (forall ok, e <> ConnectSettled ok) ->
  db (step st e) = db st /\ degraded (step st e) = true.
Proof.
  intros D Hup Hset. pose proof D as D0.
  apply degraded_flags in D0. destruct D0 as (Ei & Ec).
  destruct e as [ok| | |commandData clk|limit|]; cbn [step].
  - exfalso. exact (Hset ok eq_refl).
  - split; [reflexivity|]. apply degraded_flags. split; [exact Ei | reflexivity].
  - contradiction.
  - rewrite (HistoryFacts.saveCommand_degraded commandData clk st D),
      HistoryFacts.save_in_memory_eq.
    split; [reflexivity | exact D].
  - rewrite (getCommands_degraded limit st D). split; [reflexivity | exact D].
  - rewrite (clearCommands_degraded st D). split; [reflexivity | exact D].
Qed.

(** X18.  A degraded store is never probed: as long as no connection event
    arrives, saving, listing and clearing leave the persistent store
    untouched and the layer degraded, even if the store would answer
    again. *)
Theorem degraded_store_is_not_consulted :
  forall (P : Persistent) (st : State) (es : list Event),
    degraded st = true ->
    Forall (fun e => e <> ConnectionUp /\ forall ok, e <> ConnectSettled ok) es ->
    db (run st es) = db st /\ degraded (run st es) = true.
Proof.
  intros P st es. revert st. induction es as [|e es IH]; intros st D F.
  - split; [reflexivity | exact D].
  - inversion F as [|? ? (Hup & Hset) F']; subst.
    destruct (@degraded_step P st e D Hup Hset) as (Edb & D').
    cbn [run fold_left]. destruct (IH (step st e) D' F') as (E1 & E2).
    split; [unfold run in E1; rewrite E1; exact Edb | exact E2].
Qed.

(** [listStore] would accept the documents, but is not asked. *)
Lemma degraded_store_is_not_consulted_witness :
  db (run (@mkState listStore [] false true [])
        [SaveCommand firstData (mkClock 5 5); GetCommands 50; ClearCommands;
         SaveCommand secondData (mkClock 6 6); ConnectionError]) = [] /\
  degraded (run (@mkState listStore [] false true [])
        [SaveCommand firstData (mkClock 5 5); GetCommands 50; ClearCommands;
         SaveCommand secondData (mkClock 6 6); ConnectionError]) = true.
Proof.
  apply (@degraded_store_is_not_consulted listStore (@mkState listStore [] false true [])).
  - reflexivity.
  - repeat constructor; discriminate.
Defined.

(** X19.  A failed read or clear is absorbed like a failed write: the call
    clears [mongoConnected] and is served from memory, a listing with the
    slice of the buffer, a clear by emptying the buffer; the caller sees no
    failure. *)
Theorem failed_read_or_clear_falls_back :
  forall (P : Persistent) (st : State),
    dbInitialized st = true ->
    mongoConnected st = true ->
    (forall limit : Z,
        fst (find_sorted limit (db st)) = None ->
        exists st' : State,
          getCommands limit st = Returned (slice0 (inMemoryCommands st) limit) st' /\
          mongoConnected st' = false /\
          inMemoryCommands st' = inMemoryCommands st) /\
    (fst (deleteMany (db st)) = None ->
     exists st' : State,
       clearCommands st = Returned tt st' /\
       mongoConnected st' = false /\
       inMemoryCommands st' = []).
Proof.
  intros P st Ei Ec. split.
  - intros limit F. unfold getCommands, list_in_memory. rewrite Ei, Ec. cbn [negb].
    destruct (find_sorted limit (db st)) as [[docs|] d]; cbn [fst] in F; [discriminate F|].
    eexists. split; [reflexivity|]. split; reflexivity.
  - intros F. unfold clearCommands. rewrite Ei, Ec. cbn [negb].
    destruct (deleteMany (db st)) as [[u|] d]; cbn [fst] in F; [discriminate F|].
    eexists. split; [reflexivity|]. split; reflexivity.
Qed.

Lemma failed_read_or_clear_falls_back_witness :
  exists st' : State,
    getCommands 50 (@mkState unreachableStore [in_memory_command firstData (mkClock 5 5)]
                      true true tt) =
      Returned (slice0 [in_memory_command firstData (mkClock 5 5)] 50) st' /\
    mongoConnected st' = false /\
    inMemoryCommands st' = [in_memory_command firstData (mkClock 5 5)].
Proof.
  refine (proj1 (@failed_read_or_clear_falls_back unreachableStore
           (@mkState unreachableStore [in_memory_command firstData (mkClock 5 5)]
              true true tt) eq_refl eq_refl) 50%Z eq_refl).
Defined.

End HistoryMore.

(* ================================================================== *)
(** ** Further properties: the API routes *)
(* ================================================================== *)

Module ApiFacts.
Import Api.

(** X20.  [POST /api/execute], once the barrier is passed, answers 400 when
    [text] or [type] is missing or empty, and then runs and saves nothing;
    otherwise it answers 200 with the status and response of
    [processCommand] and the id and timestamp of the command that
    [saveCommand] returned.  A command that fails is still a 200 with
    status 'error'; the 500 answer is never given. *)
Theorem execute_replies :
  forall (H : Host) (P : History.Persistent) (text type userAgentHeader : option string)
         (clk : History.Clock) (w : World) (st : History.State),
    History.dbInitialized st = true ->
    match text, type with
    | Some t, Some ty =>
        if (t =? "") || (ty =? "") then
          post_execute text type userAgentHeader clk w st =
          Replied 400 (Failure "Missing required fields: text, type") w st
        else
          exists (result : Outcome) (w' : World) (command : History.Command)
                 (st' : History.State),
            processCommand t
              (match userAgentHeader with Some u => or_else u "" | None => "" end) w =
              (Ok result, w') /\
            History.saveCommand
              (History.mkData t ty (status result) (response result)
                 (match userAgentHeader with Some u => or_else u "" | None => "" end))
              clk st = History.Returned command st' /\
            post_execute text type userAgentHeader clk w st =
            Replied 200
              (Executed (History._id command) (response result) (status result)
                 (History.timestamp command))
              w' st'
    | _, _ =>
        post_execute text type userAgentHeader clk w st =
        Replied 400 (Failure "Missing required fields: text, type") w st
    end.
Proof.
  intros H P text type userAgentHeader clk w st Ei.
  destruct text as [t|]; [|reflexivity].
  destruct type as [ty|]; [|reflexivity].
  unfold post_execute, truthy. rewrite !negb_involutive.
  destruct ((t =? "") || (ty =? "")); [reflexivity|].
  set (ua := match userAgentHeader with Some u => or_else u "" | None => "" end).
  rewrite processCommand_unfold.
  destruct (processCommand_try (trim (toLowerCase t)) w) as [[v|e] w'].
  - destruct (HistoryMore.saveCommand_returns
                (History.mkData t ty (fst v) (snd v) ua) clk st Ei) as (c & st' & R).
    exists (mkOutcome (fst v) (snd v)), w', c, st'.
    cbn [status response]. rewrite R. repeat split; reflexivity.
  - destruct (HistoryMore.saveCommand_returns
                (History.mkData t ty "error" (error_response e) ua) clk st Ei)
      as (c & st' & R).
    exists (mkOutcome "error" (error_response e)), w', c, st'.
    cbn [status response]. rewrite R. repeat split; reflexivity.
Qed.

(** An unknown command on a store that rejects every write: 200, status
    'error', and the command is kept in memory. *)
Lemma execute_replies_witness :
  exists (result : Outcome) (w' : World) (command : History.Command)
         (st' : History.State),
    @processCommand quietHost "asdkjf random text" "" [] = (Ok result, w') /\
    @History.saveCommand History.unreachableStore
      (History.mkData "asdkjf random text" "text" (status result) (response result) "")
      (History.mkClock 5 5) (@History.mkState History.unreachableStore [] true true tt) =
      History.Returned command st' /\
    @post_execute quietHost History.unreachableStore
      (Some "asdkjf random text") (Some "text") None (History.mkClock 5 5) []
      (@History.mkState History.unreachableStore [] true true tt) =
    Replied 200
      (Executed (History._id command) (response result) (status result)
         (History.timestamp command))
      w' st'.
Proof.
  exact (@execute_replies quietHost History.unreachableStore
           (Some "asdkjf random text") (Some "text") None (History.mkClock 5 5) []
           (@History.mkState History.unreachableStore [] true true tt) eq_refl).
Defined.

(** X21.  [GET /api/history] and [DELETE /api/history], once the barrier is
    passed, always answer 200: a failure of the persistent store is
    absorbed by the storage helpers.  The limit is never 0: a [limit] of 0,
    like a missing or unreadable one, becomes 50, and the listing then
    holds the first 50 commands of a degraded store, at most. *)
Theorem history_routes_reply :
  forall (H : Host) (P : History.Persistent) (parsed : option Z)
         (w : World) (st : History.State),
    History.dbInitialized st = true ->
    (exists (commands : list History.Command) (st' : History.State),
        History.getCommands (history_limit parsed) st = History.Returned commands st' /\
        get_history parsed w st = Replied 200 (Listed commands) w st') /\
    (exists st' : History.State,
        delete_history w st = Replied 200 (Cleared "History cleared successfully") w st') /\
    history_limit parsed <> 0%Z /\
    get_history (Some 0%Z) w st = get_history None w st /\
    history_limit None = 50%Z /\
    history_limit (Some 0%Z) = 50%Z /\
    (forall n : Z, n <> 0%Z -> history_limit (Some n) = n) /\
    (History.degraded st = true ->
     get_history None w st =
       Replied 200 (Listed (firstn 50 (History.inMemoryCommands st))) w st /\
     (List.length (firstn 50 (History.inMemoryCommands st)) <= 50)%nat).
Proof.
  intros H P parsed w st Ei.
  split; [|split; [|split; [|split; [|split; [|split; [|split]]]]]].
  - destruct (HistoryMore.getCommands_returns (history_limit parsed) st Ei)
      as (c & st' & R).
    exists c, st'. unfold get_history. rewrite R. split; reflexivity.
  - destruct (HistoryMore.clearCommands_returns st Ei) as (st' & R).
    exists st'. unfold delete_history. rewrite R. reflexivity.
  - unfold history_limit. destruct parsed as [n|]; [|discriminate].
    destruct (n =? 0)%Z eqn:E; [discriminate|]. apply Z.eqb_neq, E.
  - reflexivity.
  - reflexivity.
  - reflexivity.
  - intros n Hn. unfold history_limit. apply Z.eqb_neq in Hn. rewrite Hn. reflexivity.
  - intros D. split; [|apply firstn_le_length].
    unfold get_history. cbn [history_limit].
    rewrite (HistoryMore.getCommands_degraded 50 st D). reflexivity.
Qed.

Lemma history_routes_reply_witness :
  @get_history quietHost History.unreachableStore (Some 0%Z) []
    (History.save_all History.manyCalls History.emptyDegraded) =
  @Replied quietHost History.unreachableStore 200
    (Listed (firstn 50 (History.inMemoryCommands
                          (History.save_all History.manyCalls History.emptyDegraded))))
    [] (History.save_all History.manyCalls History.emptyDegraded).
Proof.
  destruct (@history_routes_reply quietHost History.unreachableStore
              (Some 0%Z) [] (History.save_all History.manyCalls History.emptyDegraded)
              eq_refl) as (_ & _ & _ & E & _ & _ & _ & F).
  rewrite E. apply F. vm_compute. reflexivity.
Defined.

(** X22.  Four of the five informational routes always answer 200 with a
    text; [/api/cpu-info] answers 500 exactly when [os.cpus()] is empty.
    None of them touches the command history. *)
Theorem info_routes_reply :
  forall (H : Host) (P : History.Persistent) (r : InfoRoute)
         (w : World) (st : History.State),
    match r, cpus w with
    | CpuRoute, [] =>
        get_info r w st = Replied 500 (Failure "Failed to get CPU information") w st
    | _, _ =>
        exists (info : string) (w' : World),
          get_info r w st = Replied 200 (InfoText info) w' st
    end.
Proof.
  intros H P r w st.
  destruct (info_queries_return H) as (S & M & G & N & _).
  pose proof (getCPUInfo_cases H w) as C.
  unfold get_info.
  destruct r; cbn [info_query info_failure].
  - destruct (S w) as (a & w' & -> & _). destruct (cpus w); exists a, w'; reflexivity.
  - destruct (M w) as (a & w' & -> & _). destruct (cpus w); exists a, w'; reflexivity.
  - destruct (G w) as (a & w' & -> & _). destruct (cpus w); exists a, w'; reflexivity.
  - destruct (cpus w).
    + rewrite C. reflexivity.
    + destruct C as (a & w' & -> & _). exists a, w'. reflexivity.
  - destruct (N w) as (a & w' & -> & _). destruct (cpus w); exists a, w'; reflexivity.
Qed.

End ApiFacts.

(* ================================================================== *)
(** ** Further properties: outcomes and launches *)
(* ================================================================== *)







(** X25.  When the launch rule fires on an ASCII command, on a platform
    other than Windows and macOS, and the captured name is not in the
    table, the name itself, as typed after "open", "launch" or "start" and
    trimmed, is the shell command that is run. *)
Theorem unknown_app_is_run_as_typed :
  forall (H : Host) (cmd captured : string),
    ascii_text cmd = true ->
    classify cmd = Some LaunchNamedApp ->
    appMatch cmd = Some captured ->
    (platform =? "win32") = false ->
    (platform =? "darwin") = false ->
    lookup (toLowerCase (trim captured)) appMappings_linux = None ->
    inherited_key (toLowerCase (trim captured)) = false ->
    processCommand_try cmd =
      (exec_or_reject (trim captured) (app_not_found (trim captured)) ;;
       success ("🚀 Opening " ++ trim captured)).
Proof.
  intros H cmd captured _ C M W D L K.
  rewrite processCommand_try_dispatch, C. cbn [dispatch block].
  unfold do_launch. rewrite M. unfold openSpecificApplication.
  rewrite W, D, K, L. reflexivity.
Qed.

(** "start echo one; echo two" runs the two commands. *)
Lemma unknown_app_is_run_as_typed_witness :
  @processCommand_try quietHost "start echo one; echo two" [] =
  (Ok ("success", "🚀 Opening echo one; echo two"), ["echo one; echo two"]).
Proof.
  rewrite (@unknown_app_is_run_as_typed quietHost "start echo one; echo two"
             "echo one; echo two" eq_refl eq_refl eq_refl eq_refl eq_refl eq_refl eq_refl).
  reflexivity.
Defined.
